(** * The artwork catalogue of [app.js]: record store and positional CRUD

    A shallow embedding of the request handlers of [src/app.js] (an Express
    application keeping one array [artworks] in memory and rewriting
    [data.json] after every mutation), with the properties of its record
    store proved about the embedding.

    Modelling boundary, stated once:
    - A string is a sequence of UTF-16 code units; the model keeps the code
      units U+0000..U+00FF, one [ascii] each.
    - Form fields ([req.body.title], ...) and [req.query.search] are a string
      or absent ([option string]); arrays and nested objects that the
      extended url-encoded parser can also build are not modelled.
    - [artworks] is a JavaScript array whose elements are what this program
      itself stores: a record object, [null] (what a reloaded hole becomes)
      or a hole. A document that holds anything else is a
      [ForeignDocument].
    - The array has no named property of its own. A request whose [:id]
      would read or create one, or could name a property that the runtime
      defines on every array, answers [Unmodelled]; no theorem below speaks
      about such a run.
    - The view templates exist, and writing [data.json] succeeds.
    - [public/uploads] holds the files that Multer stored and nothing
      else (no directory), each under its own name. A deletion whose
      image name is not the name of a stored file and is not a plain
      file name (it names the directory itself, or a path outside it)
      answers [Unmodelled].
    - The content of a view template, and the clock and the random number
      that name an uploaded file, are inputs of the functions that use
      them. *)

From Stdlib Require Import String Ascii ZArith NArith Lia Bool List.
From Stdlib Require Import Decimal DecimalString DecimalN.
From stdpp Require Import base option list gmap strings sorting.

Local Open Scope string_scope.
Local Open Scope char_scope.

(** ** Strings as the handlers use them *)

Module JsString.

(** The code unit of a character. *)
Definition code (c : ascii) : N := N_of_ascii c.

(** One code unit of [String.prototype.toLowerCase]: A-Z and the Latin-1
    capitals U+00C0..U+00DE (U+00D7, the multiplication sign, apart) move
    up by 32; every other code unit below U+0100 is its own lower case. *)
Definition lower_unit (c : ascii) : ascii :=
  let n := code c in
  if ((65 <=? n) && (n <=? 90) ||
      (192 <=? n) && (n <=? 222) && negb (n =? 215))%N
  then ascii_of_N (n + 32) else c.

Fixpoint toLowerCase (s : string) : string :=
  match s with
  | EmptyString => EmptyString
  | String c r => String (lower_unit c) (toLowerCase r)
  end.

(** [s.startsWith(q)] at position 0. *)
Fixpoint startsWith (s q : string) {struct q} : bool :=
  match q, s with
  | EmptyString, _ => true
  | String _ _, EmptyString => false
  | String b q', String a s' => Ascii.eqb a b && startsWith s' q'
  end.

(** [s.includes(q)]: [q] occurs in [s] at some position. *)
Fixpoint includes (s q : string) : bool :=
  startsWith s q ||
  match s with
  | EmptyString => false
  | String _ s' => includes s' q
  end.

(** A value is truthy in [title && date && description] when it is a
    non-empty string; [undefined] and the empty string are falsy. *)
Definition truthy (v : option string) : bool :=
  match v with
  | Some (String _ _) => true
  | _ => false
  end.

End JsString.
Import JsString.

(** ** [parseInt] *)

Module Number.

(** StrWhiteSpaceChar, among the code units below U+0100. *)
Definition is_StrWhiteSpaceChar (c : ascii) : bool :=
  let n := code c in
  ((9 <=? n) && (n <=? 13) || (n =? 32) || (n =? 160))%N.

Fixpoint trim_start (s : string) : string :=
  match s with
  | String c r => if is_StrWhiteSpaceChar c then trim_start r else s
  | EmptyString => s
  end.

Definition digit_value (radix : N) (c : ascii) : option N :=
  let n := code c in
  let v :=
    if ((48 <=? n) && (n <=? 57))%N then Some (n - 48)%N
    else if ((97 <=? n) && (n <=? 122))%N then Some (n - 87)%N
    else if ((65 <=? n) && (n <=? 90))%N then Some (n - 55)%N
    else None in
  match v with
  | Some d => if (d <? radix)%N then Some d else None
  | None => None
  end.

(** The value of the longest prefix of [s] made of digits of [radix];
    [acc] is [None] until a digit has been read. *)
Fixpoint digits (radix : N) (s : string) (acc : option N) : option N :=
  match s with
  | EmptyString => acc
  | String c r =>
      match digit_value radix c with
      | Some d =>
          digits radix r
            (Some (match acc with Some a => a * radix + d | None => d end)%N)
      | None => acc
      end
  end.

(** [parseInt(s)] with no radix: [None] is NaN. The result is the
    mathematical integer of the digits; the runtime rounds it to a double,
    which keeps every integer below 2^53 and moves no larger one below
    2^53, so the array index read from it below is exact. *)
Definition parseInt (s : string) : option Z :=
  let s1 := trim_start s in
  let '(negative, s2) :=
    match s1 with
    | String "-" r => (true, r)
    | String "+" r => (false, r)
    | _ => (false, s1)
    end in
  let '(radix, s3) :=
    match s2 with
    | String "0" (String "x" r) => (16%N, r)
    | String "0" (String "X" r) => (16%N, r)
    | _ => (10%N, s2)
    end in
  match digits radix s3 None with
  | Some n => Some (if negative then - Z.of_N n else Z.of_N n)%Z
  | None => None
  end.

(** The array index that a Number used as a property key names, if any:
    an integer in 0 .. 2^32 - 2 (minus zero is zero). NaN, a negative
    number and a larger one name a property no array of the model has. *)
Definition index_of_number (v : option Z) : option nat :=
  match v with
  | Some z =>
      if ((0 <=? z) && (z <? 4294967295))%Z then Some (Z.to_nat z) else None
  | None => None
  end.

End Number.
Import Number.

(** ** Property keys of the array *)

Module Key.

(** [ToString] of a non-negative integer Number, as [`${item.index}`]
    writes it into the form actions of the rendered cards. *)
Definition index_string (i : nat) : string :=
  NilZero.string_of_uint (N.to_uint (N.of_nat i)).

(** A property key [P] is an array index when [ToString(ToUint32(P))] is
    [P] and the number is not 2^32 - 1: [P] is the canonical decimal string
    of an integer in 0 .. 2^32 - 2. *)
Definition array_index (s : string) : option nat :=
  match digits 10 s None with
  | Some n =>
      if (n <? 4294967295)%N
         && String.eqb (NilZero.string_of_uint (N.to_uint n)) s
      then Some (N.to_nat n) else None
  | None => None
  end.

(** The first code unit of an identifier: a letter, [_] or [$]. Every
    string-keyed property that the runtime itself defines on an array
    ([length], the methods of [Array.prototype] and [Object.prototype],
    [__proto__]) starts with one. *)
Definition identifier_start (c : ascii) : bool :=
  let n := code c in
  ((65 <=? n) && (n <=? 90) || (97 <=? n) && (n <=? 122)
   || (n =? 95) || (n =? 36))%N.

Inductive key : Type :=
  | Index (i : nat)      (* an array index *)
  | Plain                (* no index, and no name the runtime defines *)
  | Named.               (* may name a built-in property: not modelled *)

Definition classify (id : string) : key :=
  match array_index id with
  | Some i => Index i
  | None =>
      match id with
      | String c _ => if identifier_start c then Named else Plain
      | EmptyString => Plain
      end
  end.

End Key.
Import Key.

(** ** The data model: records, array slots *)

(** The [image] property of a record: absent (an object that
    [POST /updateArtwork/:id] built from nothing), [null] (created without
    an upload) or the stored file name. *)
Inductive image_ref : Type :=
  | ImageAbsent
  | ImageNull
  | ImageFile (name : string).

(** A record object. A property that reads as [undefined] is [None]. *)
Record Artwork : Type := mkArtwork {
  title : option string;
  date : option string;
  description : option string;
  image : image_ref;
  liked : option bool
}.

(** One position of the array [artworks]. *)
Inductive slot : Type :=
  | Hole
  | Null
  | Obj (a : Artwork).

(** ** JSON text: [JSON.stringify (v, null, 2)] and [JSON.parse] *)

Module Json.

#[warnings="-register-all"]
Inductive json : Type :=
  | JNull
  | JBool (b : bool)
  | JString (s : string)
  | JArray (elements : list json)
  | JObject (members : list (string * json)).

Definition dquote : ascii := "034".
Definition backslash : ascii := "092".
Definition newline : ascii := "010".

(** *** Writing *)

Definition hex_digit (n : N) : ascii :=
  if (n <? 10)%N then ascii_of_N (48 + n) else ascii_of_N (87 + n).

(** QuoteJSONString, one code unit, followed by [k]. *)
Definition quote_unit (c : ascii) (k : string) : string :=
  let n := code c in
  if (n =? 8)%N then String backslash (String "b" k)
  else if (n =? 9)%N then String backslash (String "t" k)
  else if (n =? 10)%N then String backslash (String "n" k)
  else if (n =? 12)%N then String backslash (String "f" k)
  else if (n =? 13)%N then String backslash (String "r" k)
  else if (n =? 34)%N then String backslash (String dquote k)
  else if (n =? 92)%N then String backslash (String backslash k)
  else if (n <? 32)%N then
    String backslash (String "u" (String "0" (String "0"
      (String (hex_digit (n / 16)) (String (hex_digit (n mod 16)) k)))))
  else String c k.

Fixpoint quote_units (s : string) (k : string) : string :=
  match s with
  | EmptyString => k
  | String c r => quote_unit c (quote_units r k)
  end.

Definition QuoteJSONString (s : string) (k : string) : string :=
  String dquote (quote_units s (String dquote k)).

(** [n] levels of the gap (two spaces). *)
Fixpoint indent (n : nat) (k : string) : string :=
  match n with
  | O => k
  | S n' => String " " (String " " (indent n' k))
  end.

Definition break (n : nat) (k : string) : string :=
  String newline (indent n k).

(** What follows the first element of an array, and the first member of
    an object, written at the inner indentation by [w]; [k] follows the
    closing bracket. *)
Section Rest.
Variable w : json -> string -> string.
Variable n : nat.
Variable k : string.

Fixpoint more_elements (l : list json) : string :=
  match l with
  | nil => break n (String "]" k)
  | v :: l' => String "," (break (S n) (w v (more_elements l')))
  end.

Fixpoint more_members (l : list (string * json)) : string :=
  match l with
  | nil => break n (String "}" k)
  | (p, v) :: l' =>
      String "," (break (S n) (QuoteJSONString p
        (String ":" (String " " (w v (more_members l'))))))
  end.
End Rest.

(** SerializeJSONProperty at indentation [n], followed by [k]. *)
Fixpoint write (n : nat) (j : json) (k : string) : string :=
  match j with
  | JNull => String "n" (String "u" (String "l" (String "l" k)))
  | JBool true => String "t" (String "r" (String "u" (String "e" k)))
  | JBool false =>
      String "f" (String "a" (String "l" (String "s" (String "e" k))))
  | JString s => QuoteJSONString s k
  | JArray nil => String "[" (String "]" k)
  | JArray (v :: vs) =>
      String "[" (break (S n)
        (write (S n) v (more_elements (write (S n)) n k vs)))
  | JObject nil => String "{" (String "}" k)
  | JObject ((p, v) :: ms) =>
      String "{" (break (S n) (QuoteJSONString p (String ":" (String " "
        (write (S n) v (more_members (write (S n)) n k ms))))))
  end.

Definition stringify (j : json) : string := write 0 j EmptyString.

(** *** Reading *)

(** What the reader answers on a text: a value and the text that follows
    it, a syntax error (where [JSON.parse] throws), or that the budget of
    recursive calls it was given is used up. A value is [None] when it is
    well formed but none of the modelled values: a number, or a string
    with a code unit above U+00FF. *)
Inductive parsed (A : Type) : Type :=
  | Ok (a : A) (rest : string)
  | SyntaxError
  | OutOfFuel.
Arguments Ok {A} a rest.
Arguments SyntaxError {A}.
Arguments OutOfFuel {A}.

Definition map_parsed {A B : Type} (f : A -> B) (p : parsed A) : parsed B :=
  match p with
  | Ok a rest => Ok (f a) rest
  | SyntaxError => SyntaxError
  | OutOfFuel => OutOfFuel
  end.

Definition option_cons {A : Type} (v : option A) (vs : option (list A))
  : option (list A) :=
  match v, vs with
  | Some x, Some xs => Some (x :: xs)
  | _, _ => None
  end.

Definition option_pair {A B : Type} (p : option A) (v : option B)
  : option (A * B) :=
  match p, v with
  | Some x, Some y => Some (x, y)
  | _, _ => None
  end.

Definition is_ws (c : ascii) : bool :=
  let n := code c in ((n =? 32) || (n =? 9) || (n =? 10) || (n =? 13))%N.

Fixpoint skip_ws (s : string) : string :=
  match s with
  | String c r => if is_ws c then skip_ws r else s
  | EmptyString => s
  end.

Definition hex_value (c : ascii) : option N :=
  let n := code c in
  if ((48 <=? n) && (n <=? 57))%N then Some (n - 48)%N
  else if ((97 <=? n) && (n <=? 102))%N then Some (n - 87)%N
  else if ((65 <=? n) && (n <=? 70))%N then Some (n - 55)%N
  else None.

Definition hex4 (a b c d : ascii) : option N :=
  match hex_value a, hex_value b, hex_value c, hex_value d with
  | Some x, Some y, Some z, Some w =>
      Some (((x * 16 + y) * 16 + z) * 16 + w)%N
  | _, _, _, _ => None
  end.

Definition push_unit (c : ascii) (p : parsed (option string))
  : parsed (option string) :=
  map_parsed (option_map (String c)) p.

(** The characters of a string literal, after its opening quote. *)
Fixpoint read_units (s : string) : parsed (option string) :=
  match s with
  | EmptyString => SyntaxError
  | String c r =>
      if Ascii.eqb c dquote then Ok (Some EmptyString) r
      else if Ascii.eqb c backslash then
        match r with
        | EmptyString => SyntaxError
        | String e r' =>
            if Ascii.eqb e dquote then push_unit dquote (read_units r')
            else if Ascii.eqb e backslash then
              push_unit backslash (read_units r')
            else if Ascii.eqb e "/" then push_unit "/" (read_units r')
            else if Ascii.eqb e "b" then push_unit "008" (read_units r')
            else if Ascii.eqb e "f" then push_unit "012" (read_units r')
            else if Ascii.eqb e "n" then push_unit "010" (read_units r')
            else if Ascii.eqb e "r" then push_unit "013" (read_units r')
            else if Ascii.eqb e "t" then push_unit "009" (read_units r')
            else if Ascii.eqb e "u" then
              match r' with
              | String h1 (String h2 (String h3 (String h4 r''))) =>
                  match hex4 h1 h2 h3 h4 with
                  | Some n =>
                      if (n <? 256)%N
                      then push_unit (ascii_of_N n) (read_units r'')
                      else map_parsed (fun _ => None) (read_units r'')
                  | None => SyntaxError
                  end
              | _ => SyntaxError
              end
            else SyntaxError
        end
      else if (code c <? 32)%N then SyntaxError
      else push_unit c (read_units r)
  end.

(** The rest of a literal name ([ull], [rue], [alse]). *)
Fixpoint strip (word s : string) : option string :=
  match word, s with
  | EmptyString, _ => Some s
  | String _ _, EmptyString => None
  | String a w, String b r => if Ascii.eqb a b then strip w r else None
  end.

Definition expect (word : string) (s : string) (v : json)
  : parsed (option json) :=
  match strip word s with
  | Some rest => Ok (Some v) rest
  | None => SyntaxError
  end.

(** A number: an optional minus sign; a zero, or a digit from 1 to 9 and
    any digits; optionally a point and one digit or more; optionally [e]
    or [E], an optional sign and one digit or more. [read_number s] is
    the text after the number that [s] starts with. *)
Definition is_digit (c : ascii) : bool :=
  let n := code c in ((48 <=? n) && (n <=? 57))%N.

Fixpoint skip_digits (s : string) : string :=
  match s with
  | String c r => if is_digit c then skip_digits r else s
  | EmptyString => s
  end.

Definition some_digits (s : string) : option string :=
  match s with
  | String c r => if is_digit c then Some (skip_digits r) else None
  | EmptyString => None
  end.

Definition after_fraction (s : string) : option string :=
  match s with
  | String c r =>
      if Ascii.eqb c "e" || Ascii.eqb c "E" then
        match r with
        | String g r' =>
            if Ascii.eqb g "+" || Ascii.eqb g "-" then some_digits r'
            else some_digits r
        | EmptyString => None
        end
      else Some s
  | EmptyString => Some s
  end.

Definition after_integer (s : string) : option string :=
  match s with
  | String c r =>
      if Ascii.eqb c "." then
        match some_digits r with
        | Some r' => after_fraction r'
        | None => None
        end
      else after_fraction s
  | EmptyString => Some s
  end.

Definition read_number (s : string) : option string :=
  let s1 :=
    match s with
    | String c r => if Ascii.eqb c "-" then r else s
    | EmptyString => s
    end in
  match s1 with
  | String c r =>
      if Ascii.eqb c "0" then after_integer r
      else if is_digit c then after_integer (skip_digits r)
      else None
  | EmptyString => None
  end.

(** The next character that is no white space is [c]. *)
Definition next_is (c : ascii) (s : string) : option string :=
  match skip_ws s with
  | String c' rest => if Ascii.eqb c' c then Some rest else None
  | EmptyString => None
  end.

Fixpoint read_value (fuel : nat) (s : string) : parsed (option json) :=
  match fuel with
  | O => OutOfFuel
  | S fuel' =>
      match skip_ws s with
      | EmptyString => SyntaxError
      | String c r =>
          if Ascii.eqb c "n" then expect "ull" r JNull
          else if Ascii.eqb c "t" then expect "rue" r (JBool true)
          else if Ascii.eqb c "f" then expect "alse" r (JBool false)
          else if Ascii.eqb c dquote then
            map_parsed (option_map JString) (read_units r)
          else if Ascii.eqb c "[" then
            match next_is "]" r with
            | Some rest => Ok (Some (JArray nil)) rest
            | None => map_parsed (option_map JArray) (read_elements fuel' r)
            end
          else if Ascii.eqb c "{" then
            match next_is "}" r with
            | Some rest => Ok (Some (JObject nil)) rest
            | None => map_parsed (option_map JObject) (read_members fuel' r)
            end
          else
            match read_number (String c r) with
            | Some rest => Ok None rest
            | None => SyntaxError
            end
      end
  end
with read_elements (fuel : nat) (s : string)
  : parsed (option (list json)) :=
  match fuel with
  | O => OutOfFuel
  | S fuel' =>
      match read_value fuel' s with
      | Ok v rest =>
          match next_is "]" rest, next_is "," rest with
          | Some rest', _ => Ok (option_cons v (Some nil)) rest'
          | None, Some rest' =>
              map_parsed (option_cons v) (read_elements fuel' rest')
          | None, None => SyntaxError
          end
      | SyntaxError => SyntaxError
      | OutOfFuel => OutOfFuel
      end
  end
with read_members (fuel : nat) (s : string)
  : parsed (option (list (string * json))) :=
  match fuel with
  | O => OutOfFuel
  | S fuel' =>
      match next_is dquote s with
      | Some r =>
          match read_units r with
          | Ok p rest =>
              match next_is ":" rest with
              | Some rest' =>
                  match read_value fuel' rest' with
                  | Ok v rest'' =>
                      match next_is "}" rest'', next_is "," rest'' with
                      | Some rest3, _ =>
                          Ok (option_cons (option_pair p v) (Some nil)) rest3
                      | None, Some rest3 =>
                          map_parsed (option_cons (option_pair p v))
                            (read_members fuel' rest3)
                      | None, None => SyntaxError
                      end
                  | SyntaxError => SyntaxError
                  | OutOfFuel => OutOfFuel
                  end
              | None => SyntaxError
              end
          | SyntaxError => SyntaxError
          | OutOfFuel => OutOfFuel
          end
      | None => SyntaxError
      end
  end.

(** [JSON.parse text]: one value, then nothing but white space. Two
    recursive calls per character of the text are budget enough. *)
Definition parse (text : string) : parsed (option json) :=
  match read_value (S (2 * String.length text)) text with
  | Ok j rest =>
      match skip_ws rest with
      | EmptyString => Ok j EmptyString
      | String _ _ => SyntaxError
      end
  | SyntaxError => SyntaxError
  | OutOfFuel => OutOfFuel
  end.

(** Fuel with which [read_value] reads back what [write] wrote. *)
Fixpoint need (j : json) : nat :=
  match j with
  | JArray l => S (list_sum (map (fun v => S (need v)) l))
  | JObject ms => S (list_sum (map (fun pv => S (need (snd pv))) ms))
  | _ => 1
  end.

(** The first character of a written value. *)
Definition value_head (c : ascii) : Prop :=
  c = "n"%char \/ c = "t"%char \/ c = "f"%char \/ c = dquote
  \/ c = "["%char \/ c = "{"%char.

(** What [write] wrote, [read_value] reads back, whatever follows. *)
Definition reads_back (j : json) : Prop :=
  forall n k f, need j <= f -> read_value f (write n j k) = Ok (Some j) k.

(** A written value is at least as long as the fuel it needs. *)
Definition long_enough (j : json) : Prop :=
  forall n k, need j + String.length k <= String.length (write n j k).

End Json.

(** ** The persisted document *)

Module Store.
Import Json.
Local Open Scope string_scope.

(** An object none of whose properties is set: what [{...undefined}] and
    [{...null}] spread. *)
Definition no_properties : Artwork :=
  mkArtwork None None None ImageAbsent None.

Definition member {A : Type} (name : string) (f : A -> json)
  (v : option A) : list (string * json) :=
  match v with
  | Some x => (name, f x) :: nil
  | None => nil
  end.

(** SerializeJSONObject of a record: a property whose value is
    [undefined] is left out. The members are written in the order in which
    [POST /addArtwork] creates them; the runtime writes them in the order
    in which the object got them, which differs for a record that was
    loaded without one of them and given it later. The order changes the
    text, not the value read back. *)
Definition record_json (a : Artwork) : json :=
  JObject (member "title" JString (title a)
           ++ member "date" JString (date a)
           ++ member "description" JString (description a)
           ++ match image a with
              | ImageAbsent => nil
              | ImageNull => ("image", JNull) :: nil
              | ImageFile f => ("image", JString f) :: nil
              end
           ++ member "liked" JBool (liked a)).

(** SerializeJSONArray writes [null] for a hole. *)
Definition slot_json (s : slot) : json :=
  match s with
  | Hole => JNull
  | Null => JNull
  | Obj a => record_json a
  end.

Definition to_json (arts : list slot) : json := JArray (map slot_json arts).

(** [JSON.stringify(artworks, null, 2)] *)
Definition JSON_stringify (arts : list slot) : string :=
  stringify (to_json arts).

(** The value [JSON.parse] builds, read back as an array of this
    program's records; [None] for any other value. A repeated member
    keeps its last value. *)
Definition set_member (a : Artwork) (p : string) (v : json)
  : option Artwork :=
  if String.eqb p "title" then
    match v with
    | JString s =>
        Some (mkArtwork (Some s) (date a) (description a) (image a) (liked a))
    | _ => None
    end
  else if String.eqb p "date" then
    match v with
    | JString s =>
        Some (mkArtwork (title a) (Some s) (description a) (image a) (liked a))
    | _ => None
    end
  else if String.eqb p "description" then
    match v with
    | JString s =>
        Some (mkArtwork (title a) (date a) (Some s) (image a) (liked a))
    | _ => None
    end
  else if String.eqb p "image" then
    match v with
    | JNull =>
        Some (mkArtwork (title a) (date a) (description a) ImageNull (liked a))
    | JString f =>
        Some (mkArtwork (title a) (date a) (description a) (ImageFile f)
                (liked a))
    | _ => None
    end
  else if String.eqb p "liked" then
    match v with
    | JBool b =>
        Some (mkArtwork (title a) (date a) (description a) (image a) (Some b))
    | _ => None
    end
  else None.

Fixpoint read_record (ms : list (string * json)) (a : Artwork)
  : option Artwork :=
  match ms with
  | nil => Some a
  | (p, v) :: ms' =>
      match set_member a p v with
      | Some a' => read_record ms' a'
      | None => None
      end
  end.

Definition slot_of_json (j : json) : option slot :=
  match j with
  | JNull => Some Null
  | JObject ms =>
      match read_record ms no_properties with
      | Some a => Some (Obj a)
      | None => None
      end
  | _ => None
  end.

Fixpoint slots_of_json (l : list json) : option (list slot) :=
  match l with
  | nil => Some nil
  | j :: l' =>
      match slot_of_json j, slots_of_json l' with
      | Some s, Some ss => Some (s :: ss)
      | _, _ => None
      end
  end.

Definition of_json (j : json) : option (list slot) :=
  match j with
  | JArray l => slots_of_json l
  | _ => None
  end.

(** What [artworks] holds once the module has been loaded. *)
Inductive startup : Type :=
  | Loaded (arts : list slot)
  | ForeignDocument.

(** Lines 25-30: [try { artworks = JSON.parse(fs.readFileSync('data.json',
    'utf-8')) } catch { artworks = [] }]. The file is [None] when it does
    not exist ([readFileSync] throws). *)
Definition load (file : option string) : startup :=
  match file with
  | None => Loaded nil
  | Some text =>
      match parse text with
      | Ok (Some j) _ =>
          match of_json j with
          | Some arts => Loaded arts
          | None => ForeignDocument
          end
      | Ok None _ => ForeignDocument
      | SyntaxError => Loaded nil
      | OutOfFuel => ForeignDocument
      end
  end.

End Store.
Import Store.
Local Open Scope string_scope.

(** ** The process state and the handlers' effects *)

Inductive event : Type :=
  | WriteFile (text : string)   (* fs.writeFileSync('data.json', text) *)
  | Unlink (name : string).     (* fs.unlinkSync of an uploaded image *)

Record world : Type := mkWorld {
  artworks : list slot;          (* the module-level array *)
  data_json : option string;     (* the content of data.json, if it exists *)
  uploads : gset string;         (* the file names under public/uploads *)
  log : list event               (* file system calls made so far *)
}.

Inductive exn : Type :=
  | TypeError.

Inductive response : Type :=
  | Redirect (location : string)
  | Send (body : string)
  | Page (view : string) (items : list (nat * Artwork)) (search : string)
  | Form (id : string) (title date description : option string).

(** How a handler ends: it answers, it throws (Express answers 500), or
    the run leaves the model. *)
Inductive outcome (A : Type) : Type :=
  | Returns (a : A) (w : world)
  | Throws (e : exn) (w : world)
  | Unmodelled.
Arguments Returns {A} a w.
Arguments Throws {A} e w.
Arguments Unmodelled {A}.

Definition M (A : Type) : Type := world -> outcome A.

Definition ret {A : Type} (a : A) : M A := fun w => Returns a w.

Definition bind {A B : Type} (m : M A) (k : A -> M B) : M B :=
  fun w =>
    match m w with
    | Returns a w' => k a w'
    | Throws e w' => Throws e w'
    | Unmodelled => Unmodelled
    end.

Notation "'let*' x := m 'in' k" := (bind m (fun x => k))
  (at level 10, x name, m at level 100, k at level 200).
Notation "m ;; k" := (bind m (fun _ => k))
  (at level 100, k at level 200, right associativity).

Definition throw {A : Type} (e : exn) : M A := fun w => Throws e w.
Definition unmodelled {A : Type} : M A := fun _ => Unmodelled.

Definition read_artworks : M (list slot) := fun w => Returns (artworks w) w.

Definition assign_artworks (arts : list slot) : M unit :=
  fun w => Returns tt (mkWorld arts (data_json w) (uploads w) (log w)).

(** Line 33. *)
Definition saveArtwork : M unit :=
  fun w =>
    let text := JSON_stringify (artworks w) in
    Returns tt (mkWorld (artworks w) (Some text) (uploads w)
                  (log w ++ WriteFile text :: nil)).

(** Multer's disk storage, run by [upload.single('image')] before the
    handler: an uploaded file is stored under [name]. *)
Definition store_upload (file : option string) : M unit :=
  fun w =>
    match file with
    | Some name =>
        Returns tt (mkWorld (artworks w) (data_json w) ({[name]} ∪ uploads w)
                      (log w))
    | None => Returns tt w
    end.

(** A name that [path.join] leaves as one entry of the directory it is
    joined to: not empty, neither [.] nor [..], and without a separator
    (the slash, and the backslash of the Windows paths) or a NUL. *)
Definition plain_name (name : string) : bool :=
  negb (String.eqb name EmptyString)
  && negb (String.eqb name ".")
  && negb (String.eqb name "..")
  && negb (includes name "/")
  && negb (includes name (String Json.backslash EmptyString))
  && negb (includes name (String "000" EmptyString)).

(** Lines 208-213: [p = path.join(__dirname, 'public', 'uploads', name)],
    then [if (fs.existsSync(p)) fs.unlinkSync(p)].
    - A name in [uploads] is a name under which Multer stored a file that
      is still there; Multer joins the name to the directory as line 208
      does, so [p] is that file: it exists and is unlinked.
    - Any other plain name is an entry that the directory does not have:
      nothing exists at [p].
    - Any other name makes [p] the directory itself ([.]), a directory
      above it or a path elsewhere, where [existsSync] may be true and
      [unlinkSync] may throw (EISDIR on a directory): such a run is not
      modelled. *)
Definition unlink_if_exists (name : string) : M unit :=
  fun w =>
    if decide (name ∈ uploads w)
    then Returns tt (mkWorld (artworks w) (data_json w)
                       (uploads w ∖ {[name]}) (log w ++ Unlink name :: nil))
    else if plain_name name then Returns tt w
    else Unmodelled.

(** ** The request handlers *)

(** [artworks[i]] for an array index [i], as a handler reads it. *)
Definition element (arts : list slot) (i : nat) : slot :=
  match arts !! i with
  | Some s => s
  | None => Hole
  end.

(** [artworks[i] = v]: in range the element is replaced; past the end
    the array is extended, the positions in between left as holes. *)
Definition assign (arts : list slot) (i : nat) (v : slot) : list slot :=
  if decide (i < length arts)
  then <[i := v]> arts
  else arts ++ replicate (i - length arts) Hole ++ v :: nil.

(** [{...existing}] *)
Definition spread (s : slot) : Artwork :=
  match s with
  | Obj a => a
  | Null => no_properties
  | Hole => no_properties
  end.

(** [req.query.search || ''] *)
Definition searchQuery (search : option string) : string :=
  match search with
  | Some q => q
  | None => EmptyString
  end.

(** [artworks.map((item, index) => ({ ...item, index }))]: [map] skips
    the holes. *)
Fixpoint with_index (i : nat) (arts : list slot) : list (nat * Artwork) :=
  match arts with
  | nil => nil
  | Hole :: r => with_index (S i) r
  | s :: r => (i, spread s) :: with_index (S i) r
  end.

(** [.filter(p)] for a callback that may throw ([None]). *)
Fixpoint filter_or_throw {A : Type} (p : A -> option bool) (l : list A)
  : option (list A) :=
  match l with
  | nil => Some nil
  | x :: r =>
      match p x with
      | Some b =>
          match filter_or_throw p r with
          | Some r' => Some (if b then x :: r' else r')
          | None => None
          end
      | None => None
      end
  end.

(** [v.toLowerCase().includes(q.toLowerCase())]; reading [toLowerCase]
    of [undefined] throws. *)
Definition matches (v : option string) (q : string) : option bool :=
  match v with
  | Some t => Some (includes (toLowerCase t) (toLowerCase q))
  | None => None
  end.

(** Lines 45-47. *)
Definition home_filter (q : string) (item : nat * Artwork) : option bool :=
  matches (title (snd item)) q.

(** Lines 103-108: [item.liked && (title... || description...)]. *)
Definition favourites_filter (q : string) (item : nat * Artwork)
  : option bool :=
  match liked (snd item) with
  | Some true =>
      match matches (title (snd item)) q with
      | Some true => Some true
      | Some false => matches (description (snd item)) q
      | None => None
      end
  | _ => Some false
  end.

(** [GET /] *)
Definition get_home (search : option string) : M response :=
  let* arts := read_artworks in
  match filter_or_throw (home_filter (searchQuery search))
          (with_index 0 arts) with
  | Some filteredArtworks =>
      ret (Page "index.html" filteredArtworks (searchQuery search))
  | None => throw TypeError
  end.

(** [GET /favourites] *)
Definition get_favourites (search : option string) : M response :=
  let* arts := read_artworks in
  match filter_or_throw (favourites_filter (searchQuery search))
          (with_index 0 arts) with
  | Some likedArtwork =>
      ret (Page "favourites.html" likedArtwork (searchQuery search))
  | None => throw TypeError
  end.

(** [POST /addArtwork] *)
Definition post_addArtwork (title date description : option string)
  (file : option string) : M response :=
  store_upload file ;;
  let image :=
    match file with
    | Some filename => ImageFile filename
    | None => ImageNull
    end in
  if truthy title && truthy date && truthy description then
    let* arts := read_artworks in
    assign_artworks
      (arts ++ Obj (mkArtwork title date description image (Some false))
            :: nil) ;;
    saveArtwork ;;
    ret (Redirect "/")
  else ret (Send "All fields are required (except image).").

(** [GET /updateArtwork/:id] *)
Definition get_updateArtwork (id : string) : M response :=
  let* arts := read_artworks in
  match classify id with
  | Index i =>
      match element arts i with
      | Obj item => ret (Form id (title item) (date item) (description item))
      | Null => throw TypeError
      | Hole => throw TypeError
      end
  | Plain => throw TypeError
  | Named => unmodelled
  end.

(** [POST /updateArtwork/:id] *)
Definition post_updateArtwork (id : string)
  (title date description : option string) : M response :=
  let* arts := read_artworks in
  match classify id with
  | Index i =>
      let existing := spread (element arts i) in
      assign_artworks
        (assign arts i
           (Obj (mkArtwork title date description
                   (image existing) (liked existing)))) ;;
      saveArtwork ;;
      ret (Redirect "/")
  | Plain => unmodelled
  | Named => unmodelled
  end.

(** [POST /deleteArtwork/:id] *)
Definition post_deleteArtwork (id : string) : M response :=
  let* arts := read_artworks in
  match classify id with
  | Index i =>
      match element arts i with
      | Obj artwork =>
          match image artwork with
          | ImageFile (String c r) => unlink_if_exists (String c r)
          | _ => ret tt
          end ;;
          assign_artworks (delete i arts) ;;
          saveArtwork ;;
          ret (Redirect "/")
      | Null => throw TypeError
      | Hole => throw TypeError
      end
  | Plain => throw TypeError
  | Named => unmodelled
  end.

(** [!v] for the [liked] property. *)
Definition not_liked (v : option bool) : bool :=
  match v with
  | Some true => false
  | _ => true
  end.

(** [POST /toggleLike/:id] *)
Definition post_toggleLike (id : string) : M response :=
  let* arts := read_artworks in
  match index_of_number (parseInt id) with
  | Some i =>
      match element arts i with
      | Obj a =>
          assign_artworks
            (<[i := Obj (mkArtwork (title a) (date a) (description a)
                           (image a) (Some (not_liked (liked a))))]> arts) ;;
          saveArtwork ;;
          ret (Redirect "/")
      | Null => ret (Redirect "/")
      | Hole => ret (Redirect "/")
      end
  | None => ret (Redirect "/")
  end.

(** ** The words of the specification *)

(** A required field that is "empty or absent". *)
Definition missing (v : option string) : Prop :=
  v = None \/ v = Some EmptyString.

(** An index "within the current sequence bounds", as the handlers that
    read [artworks[req.params.id]] see it: the canonical decimal string of
    a position of the array. *)
Definition valid_index (arts : list slot) (id : string) : Prop :=
  exists i, array_index id = Some i /\ i < length arts.

(** A record whose deletion is within the model: it names no image, or
    a file that is stored, or a plain file name. *)
Definition image_in_model (w : world) (a : Artwork) : Prop :=
  match image a with
  | ImageFile name =>
      name = EmptyString \/ name ∈ uploads w \/ plain_name name = true
  | _ => True
  end.

(** A record whose image is no name ([null], absent or the empty
    string) or a plain file name. *)
Definition plain_image (a : Artwork) : Prop :=
  match image a with
  | ImageFile name => name = EmptyString \/ plain_name name = true
  | _ => True
  end.

(** The world in which the process starts on an empty catalogue. *)
Definition empty_world : world := mkWorld nil None ∅ nil.

(** ** A small catalogue for the examples *)

Definition starry : Artwork :=
  mkArtwork (Some "Starry Night") (Some "1889") (Some "Oil on canvas")
    (ImageFile "1700000000000-42-night.png") (Some true).

Definition sunflowers : Artwork :=
  mkArtwork (Some "Sunflowers") (Some "1888") (Some "Still life")
    ImageNull (Some false).

Definition gallery : world :=
  mkWorld (Obj starry :: Obj sunflowers :: nil)
    (Some (JSON_stringify (Obj starry :: Obj sunflowers :: nil)))
    {[ "1700000000000-42-night.png" ]} nil.

(** ** Runs of the mutating handlers *)

(** One request that a mutating handler answers (it does not throw). *)
Inductive step : world -> world -> Prop :=
  | step_create title date description file r w w' :
      post_addArtwork title date description file w = Returns r w' ->
      step w w'
  | step_update id title date description r w w' :
      post_updateArtwork id title date description w = Returns r w' ->
      step w w'
  | step_delete id r w w' :
      post_deleteArtwork id w = Returns r w' ->
      step w w'
  | step_toggle id r w w' :
      post_toggleLike id w = Returns r w' ->
      step w w'.

(** The states a process started on an empty catalogue can be in. *)
Definition reachable (w : world) : Prop := rtc step empty_world w.

(** "Non-empty text". *)
Definition non_empty_text (v : option string) : Prop :=
  exists c r, v = Some (String c r).

(** ** Creating a catalogue *)

(** The form that [POST /addArtwork] receives. *)
Record submission : Type := mkSubmission {
  sub_title : option string;
  sub_date : option string;
  sub_description : option string;
  sub_file : option string
}.

(** The three required fields are present and non-empty. *)
Definition accepted (s : submission) : Prop :=
  truthy (sub_title s) && truthy (sub_date s) && truthy (sub_description s)
  = true.

(** The record that an accepted submission appends. *)
Definition record_of (s : submission) : Artwork :=
  mkArtwork (sub_title s) (sub_date s) (sub_description s)
    match sub_file s with
    | Some filename => ImageFile filename
    | None => ImageNull
    end
    (Some false).

(** A run of [POST /addArtwork] requests, one per submission. *)
Fixpoint creates (subs : list submission) : M unit :=
  match subs with
  | nil => ret tt
  | s :: rest =>
      post_addArtwork (sub_title s) (sub_date s) (sub_description s)
        (sub_file s) ;;
      creates rest
  end.

(** The record that [artworks[parseInt(id)]] denotes, if it is one. *)
Definition toggle_target (arts : list slot) (id : string)
  : option (nat * Artwork) :=
  match index_of_number (parseInt id) with
  | Some i =>
      match element arts i with
      | Obj a => Some (i, a)
      | _ => None
      end
  | None => None
  end.

(** The world an outcome leaves, for naming the result of a run. *)
Definition world_after {A : Type} (o : outcome A) : world :=
  match o with
  | Returns _ w => w
  | Throws _ w => w
  | Unmodelled => empty_world
  end.

Definition three_submissions : list submission :=
  mkSubmission (Some "Starry Night") (Some "1889") (Some "Oil on canvas")
    (Some "1700000000000-42-night.png")
  :: mkSubmission (Some "Sunflowers") (Some "1888") (Some "Still life") None
  :: mkSubmission (Some "Irises") (Some "1889") (Some "Garden") None
  :: nil.

(** The catalogue after the three creations. *)
Definition atelier : world :=
  world_after (creates three_submissions empty_world).

(** ** The search, in the words of the specification *)

(** "Case-insensitive containment": the lower-cased query occurs in the
    lower-cased text. *)
Definition contains_ci (text : option string) (q : string) : Prop :=
  exists t pre post,
    text = Some t
    /\ toLowerCase t = String.append pre (String.append (toLowerCase q) post).







(** ** Persistence, in the words of the specification *)

(** A collection: an ordered sequence of records. *)
Definition collection (arts : list slot) : Prop :=
  Forall (fun s => exists a, s = Obj a) arts.

(** What a position of the saved array is once the document has been
    read again: a hole has become [null]. *)
Definition reloaded (s : slot) : slot :=
  match s with
  | Hole => Null
  | Null => Null
  | Obj a => Obj a
  end.

(** The titles of the specification's search example. *)
Definition lettered : world :=
  mkWorld
    (Obj (mkArtwork (Some "Abcdef") (Some "2001") (Some "first")
            ImageNull (Some true))
     :: Obj (mkArtwork (Some "xyz") (Some "2002") (Some "second")
               ImageNull (Some true))
     :: Obj (mkArtwork (Some "ABC123") (Some "2003") (Some "third")
               ImageNull (Some false))
     :: nil)
    None ∅ nil.

(** ** Proof steps *)

(** Case analysis on every test of a hypothesis. *)
Ltac split_ifs :=
  repeat match goal with
         | H : context [if ?b then _ else _] |- _ => destruct b
         end.

(** The digit test on a literal character, evaluated. *)
Ltac eval_digit :=
  match goal with
  | |- context [digit_value 10 ?c] =>
      let v := eval vm_compute in (digit_value 10 c) in
      change (digit_value 10 c) with v
  end;
  cbv beta iota.

(** A reader given the fuel that a written value needs has some. *)
Ltac some_fuel f Hf :=
  destruct f as [|f]; [simpl in Hf; lia|].


(** ** The pages that the views send *)

Module Html.

(** The markup of a template literal. The double quote of the source is
    written ['] in the literals below (the source has no ['] in its
    markup); [html] reads it back. *)
Fixpoint html (s : string) : string :=
  match s with
  | EmptyString => EmptyString
  | String c r =>
      String (if Ascii.eqb c "'" then Json.dquote else c) (html r)
  end.

(** [ToString] of a property that holds a string or is [undefined], as
    [`${item.title}`] and the replacement argument of [replace] apply
    it. *)
Definition ToString (v : option string) : string :=
  match v with
  | Some s => s
  | None => "undefined"
  end.

(** The pieces of a template literal put together, and [.join('')] of an
    array of strings. *)
Definition join (l : list string) : string :=
  fold_right String.append EmptyString l.

(** The card of the home page: the template literal of lines 49-82. *)
Definition home_card (item : nat * Artwork) : string :=
  let index := fst item in
  let a := snd item in
  join
   [ html " 
    <div class='col-md-4 mb-4'>
      <div class='card h-100 shadow-sm position-relative'>
        ";
     match image a with
     | ImageFile (String c r) =>
         join
           [ html "<img src='/uploads/";
             String c r;
             html "' class='card-img-top' alt='";
             ToString (title a);
             html "'>" ]
     | _ => EmptyString
     end;
     html "
        <div class='card-body'>
          <button type='button' class='btn btn-link p-0 card-title text-start' 
            data-bs-toggle='modal' 
            data-bs-target='#artworkModal' 
            data-title='";
     ToString (title a);
     html "' 
            data-date='";
     ToString (date a);
     html "' 
            data-description='";
     ToString (description a);
     html "'>
            ";
     ToString (title a);
     html "
          </button>
        </div>
        <div class='card-icons d-flex justify-content-between align-items-center gap-2 mb-3 mx-3'>
          <form method='POST' action='/toggleLike/";
     index_string index;
     html "'>
            <button type='submit' class='icon-button text-danger' title='Like'>
              <i class='bi ";
     match liked a with
     | Some true => "bi-heart-fill"
     | _ => "bi-heart"
     end;
     html "'></i>
            </button>
          </form>
          <div class='d-flex gap-2'>
            <a href='/updateArtwork/";
     index_string index;
     html "' class='icon-link edit-icon' title='Edit'>
              <i class='bi bi-pencil-square'></i>
            </a>
            <form method='POST' action='/deleteArtwork/";
     index_string index;
     html "' class='m-0 p-0 d-inline'>
              <button type='submit' class='icon-button text-danger' title='Delete'>
                <i class='bi bi-trash3-fill'></i>
              </button>
            </form>
          </div>
        </div>
      </div>
    </div>
  " ].

(** The card of the favourites page: the template literal of lines
    110-133. *)
Definition favourites_card (item : nat * Artwork) : string :=
  let index := fst item in
  let a := snd item in
  join
   [ html " 
      <div class='artwork-card'>
        <div class='card-icons'>
          <a href='/updateArtwork/";
     index_string index;
     html "' class='icon-link' title='Edit'>
            <i class='bi bi-pencil-square'></i>
          </a>
          <form method='POST' action='/deleteArtwork/";
     index_string index;
     html "' class='d-inline m-0 p-0'>
            <button type='submit' title='Delete' class='icon-button'>
              <i class='bi bi-trash3-fill'></i>
            </button>
          </form>
        </div>
        <div class='row align-items-center'>
          <div class='col-md-8'>
            <h4>";
     ToString (title a);
     html "</h4>
            <p id='artwork_date'><strong>Date:</strong> ";
     ToString (date a);
     html "</p>
            <p id='artwork_desc'>";
     ToString (description a);
     html "</p>
          </div>
          <div class='col-md-4'>
            ";
     match image a with
     | ImageFile (String c r) =>
         join
           [ html "<img src='/uploads/";
             String c r;
             html "' class='artwork-image img-fluid' alt='Artwork Image'>" ]
     | _ => EmptyString
     end;
     html "
          </div>
        </div>
      </div>
    " ].

(** *** [String.prototype.replace] with a string pattern *)

(** [s] without its first [n] code units. *)
Fixpoint skip (n : nat) (s : string) : string :=
  match n, s with
  | S m, String _ r => skip m r
  | _, _ => s
  end.

(** StringIndexOf (s, p, 0), as the text before the first occurrence of
    [p] and the text after it. *)
Fixpoint first_occurrence (s p : string) : option (string * string) :=
  if startsWith s p then Some (EmptyString, skip (String.length p) s)
  else
    match s with
    | EmptyString => None
    | String c r =>
        match first_occurrence r p with
        | Some (preceding, following) => Some (String c preceding, following)
        | None => None
        end
    end.

(** GetSubstitution for a match without captures: [$$] is a dollar sign,
    [$&] the matched text, [$`] the text before the match and [$'] the
    text after it; a dollar sign followed by anything else stands for
    itself. *)
Fixpoint GetSubstitution (matched preceding following template : string)
  : string :=
  match template with
  | EmptyString => EmptyString
  | String c r =>
      if Ascii.eqb c "$" then
        match r with
        | String d r' =>
            if Ascii.eqb d "$" then
              String "$" (GetSubstitution matched preceding following r')
            else if Ascii.eqb d "&" then
              matched ++ GetSubstitution matched preceding following r'
            else if Ascii.eqb d "`" then
              preceding ++ GetSubstitution matched preceding following r'
            else if Ascii.eqb d "'" then
              following ++ GetSubstitution matched preceding following r'
            else String c (GetSubstitution matched preceding following r)
        | EmptyString => String c EmptyString
        end
      else String c (GetSubstitution matched preceding following r)
  end.

(** [s.replace(p, r)] for strings [p] and [r]: the first occurrence of
    [p] only. *)
Definition replace (s p r : string) : string :=
  match first_occurrence s p with
  | Some (preceding, following) =>
      preceding ++ GetSubstitution p preceding following r ++ following
  | None => s
  end.

End Html.
Import Html.

(** [GET /] with the page it sends; [template] is the content of
    [views/index.html]. *)
Definition home_page (template : string) (search : option string)
  : M string :=
  let* arts := read_artworks in
  match filter_or_throw (home_filter (searchQuery search))
          (with_index 0 arts) with
  | Some items =>
      let filteredArtworks := join (map home_card items) in
      ret (replace (replace template "<!-- ARTWORK_LIST -->" filteredArtworks)
             "{{search}}" (searchQuery search))
  | None => throw TypeError
  end.

(** [GET /favourites] with the page it sends; [template] is the content
    of [views/favourites.html]. *)
Definition favourites_page (template : string) (search : option string)
  : M string :=
  let* arts := read_artworks in
  match filter_or_throw (favourites_filter (searchQuery search))
          (with_index 0 arts) with
  | Some items =>
      let likedArtworkHTML := join (map favourites_card items) in
      ret (replace (replace template "<!-- FAVOURITES_LIST -->"
                      likedArtworkHTML)
             "{{search}}" (searchQuery search))
  | None => throw TypeError
  end.

(** [GET /updateArtwork/:id] with the form it sends; [template] is the
    content of [views/update.html]. *)
Definition update_page (template id : string) : M string :=
  let* arts := read_artworks in
  match classify id with
  | Index i =>
      match element arts i with
      | Obj item =>
          ret (replace
                 (replace
                    (replace (replace template "{{id}}" id)
                       "{{title}}" (ToString (title item)))
                    "{{date}}" (ToString (date item)))
                 "{{description}}" (ToString (description item)))
      | Null => throw TypeError
      | Hole => throw TypeError
      end
  | Plain => throw TypeError
  | Named => unmodelled
  end.

(** ** The name of an uploaded file *)

(** [ToString] of a non-negative integer Number below 10^21. *)
Definition decimal (n : N) : string :=
  NilZero.string_of_uint (N.to_uint n).

(** Lines 16-20. [now] is [Date.now()], the milliseconds since 1970, and
    [random] is [Math.round(Math.random() * 1e9)], an integer from 0 to
    10^9; both are inputs of the model. *)
Definition filename (now random : N) (originalname : string) : string :=
  let uniqueSuffix := decimal now ++ "-" ++ decimal random in
  uniqueSuffix ++ "-" ++ originalname.

(** ** Words for the properties of the pages *)

(** No dollar sign: a replacement text that [replace] inserts as it
    is. *)
Definition dollar_free (s : string) : Prop := includes s "$" = false.

(** No proper suffix of [p] is a prefix of [p]: two occurrences of [p] do
    not overlap. *)
Definition unbordered (p : string) : bool :=
  forallb (fun k => negb (startsWith p (skip k p)))
    (seq 1 (String.length p - 1)).

(** A position that the home page can show or pass over: a hole, or a
    record whose title is text. *)
Definition has_title (s : slot) : bool :=
  match s with
  | Hole => true
  | Null => false
  | Obj a =>
      match title a with
      | Some _ => true
      | None => false
      end
  end.

(** The card holds, as a quoted attribute value, the address [route]
    followed by the decimal writing of [i]. *)
Definition addresses (card route : string) (i : nat) : Prop :=
  includes card (html "'" ++ route ++ index_string i ++ html "'") = true.

(** A small template of each view, for the examples. *)
Definition index_html : string :=
  html "<form><input name='search' value='{{search}}'></form>
<div class='row'><!-- ARTWORK_LIST --></div>".

Definition update_html : string :=
  html "<form method='POST' action='/updateArtwork/{{id}}'>
<input name='title' value='{{title}}'>
<input name='date' value='{{date}}'>
<textarea name='description'>{{description}}</textarea>
</form>".

(** A text made of decimal digits. *)
Definition decimal_digit (c : ascii) : bool :=
  match digit_value 10 c with
  | Some _ => true
  | None => false
  end.

Fixpoint digits_only (s : string) : bool :=
  match s with
  | EmptyString => true
  | String c r => decimal_digit c && digits_only r
  end.

(** A record none of whose shown properties holds a dollar sign. *)
Definition plain_record (a : Artwork) : Prop :=
  dollar_free (ToString (title a))
  /\ dollar_free (ToString (date a))
  /\ dollar_free (ToString (description a))
  /\ match image a with
     | ImageFile name => dollar_free name
     | _ => True
     end.

(** A view fills its template: the cards stand where the list
    placeholder was and the query where [{{search}}] was, whichever of
    the two comes first in the template; [A], [B] and [C] are the parts
    of the template around the two placeholders. *)
Definition fills (page : string -> M string) (placeholder cards q : string)
  (w : world) : Prop :=
  forall A B C : string,
    (includes A "{{search}}" = false ->
     includes (A ++ "{{search}}" ++ B) placeholder = false ->
     page (A ++ "{{search}}" ++ B ++ placeholder ++ C) w
     = Returns (A ++ q ++ B ++ cards ++ C) w)
    /\ (includes A placeholder = false ->
        includes (A ++ cards ++ B) "{{search}}" = false ->
        page (A ++ placeholder ++ B ++ "{{search}}" ++ C) w
        = Returns (A ++ cards ++ B ++ q ++ C) w).

(** ** The process started again *)

(** Lines 24-30 in a new process: the array is what [data.json] holds,
    the files are where they were, nothing has been written yet. A
    document that is no array of records is outside the model. *)
Definition restarted (w : world) : option world :=
  match load (data_json w) with
  | Loaded arts => Some (mkWorld arts (data_json w) (uploads w) nil)
  | ForeignDocument => None
  end.

(** [req.file.filename] when the form came with a file: the name that
    [filename] gave it. An upload is the time, the random number and the
    name of the file on the client. *)
Definition stored_name (upload : option (N * N * string)) : option string :=
  match upload with
  | Some (now, random, originalname) =>
      Some (filename now random originalname)
  | None => None
  end.

(** A handler run that leaves the process as it found it, whether it
    answers or throws. *)
Definition leaves_unchanged {A : Type} (m : M A) (w : world) : Prop :=
  match m w with
  | Returns _ w' => w' = w
  | Throws _ w' => w' = w
  | Unmodelled => True
  end.

(** A catalogue with a title that holds two dollar signs in a row. *)
Definition priced : world :=
  mkWorld
    (Obj (mkArtwork (Some "The $$ bill") (Some "1962") (Some "Silkscreen")
            ImageNull (Some false)) :: nil)
    None ∅ nil.

(** * Properties *)

(** ** Keys and numbers on examples *)

Example parseInt_fraction : parseInt "1.9" = Some 1%Z.
Proof. reflexivity. Qed.

Example parseInt_word : parseInt "abc" = None.
Proof. reflexivity. Qed.

Example parseInt_negative : parseInt "  -12px" = Some (-12)%Z.
Proof. reflexivity. Qed.

Example parseInt_hex : parseInt "0x1f" = Some 31%Z.
Proof. reflexivity. Qed.

Example array_index_5 : array_index "5" = Some 5%nat.
Proof. reflexivity. Qed.

Example array_index_leading_zero : array_index "05" = None.
Proof. reflexivity. Qed.

Example array_index_fraction : array_index "1.9" = None.
Proof. reflexivity. Qed.

Example array_index_limit : array_index "4294967295" = None.
Proof. vm_compute. reflexivity. Qed.

Example classify_negative : classify "-1" = Plain.
Proof. reflexivity. Qed.

Example classify_length : classify "length" = Named.
Proof. reflexivity. Qed.

(** ** The index a card carries *)

Lemma digits_of_uint_acc (d : Decimal.uint) (p : positive) :
  digits 10 (NilEmpty.string_of_uint d) (Some (Npos p))
  = Some (Npos (Pos.of_uint_acc d p)).
Proof.
  revert p.
  induction d as [|d IH|d IH|d IH|d IH|d IH|d IH|d IH|d IH|d IH|d IH];
    intros p; [reflexivity|..];
    cbn [NilEmpty.string_of_uint digits Pos.of_uint_acc];
    eval_digit; rewrite <- IH; do 2 f_equal; lia.
Qed.

Lemma digits_of_uint_zero (d : Decimal.uint) :
  digits 10 (NilEmpty.string_of_uint d) (Some 0%N) = Some (Pos.of_uint d).
Proof.
  induction d as [|d IH|d IH|d IH|d IH|d IH|d IH|d IH|d IH|d IH|d IH];
    [reflexivity|exact IH|..];
    cbn [NilEmpty.string_of_uint digits Pos.of_uint];
    eval_digit; apply digits_of_uint_acc.
Qed.

Lemma digits_of_uint (d : Decimal.uint) :
  d <> Decimal.Nil ->
  digits 10 (NilZero.string_of_uint d) None = Some (N.of_uint d).
Proof.
  destruct d as [|d|d|d|d|d|d|d|d|d|d]; intros Hd; [congruence|..];
    unfold N.of_uint; [apply (digits_of_uint_zero (Decimal.D0 d))|..];
    cbn [NilZero.string_of_uint NilEmpty.string_of_uint digits Pos.of_uint];
    eval_digit; apply digits_of_uint_acc.
Qed.

Lemma to_uint_nonnil (n : N) : N.to_uint n <> Decimal.Nil.
Proof.
  destruct n as [|p]; [discriminate|].
  apply DecimalPos.Unsigned.to_uint_nonnil.
Qed.

(** X1. The decimal string that a rendered card carries for position [i]
    is the array index [i]: the links and forms of the pages address the
    records they show. *)
Theorem array_index_index_string (i : nat) :
  (N.of_nat i <? 4294967295)%N = true ->
  array_index (index_string i) = Some i.
Proof.
  intros Hi. unfold array_index, index_string.
  rewrite (digits_of_uint _ (to_uint_nonnil _)).
  rewrite DecimalN.Unsigned.of_to, Hi, String.eqb_refl. simpl.
  rewrite Nat2N.id. reflexivity.
Qed.

Lemma array_index_index_string_witness :
  array_index (index_string 1234) = Some 1234%nat.
Proof. apply (array_index_index_string 1234). reflexivity. Defined.

(** ** Create *)

Lemma truthy_false_iff (v : option string) : truthy v = false <-> missing v.
Proof.
  unfold missing; destruct v as [[|c r]|]; simpl; split; intros H;
    try reflexivity; try discriminate; auto; destruct H; discriminate.
Qed.

(** [upload.single] touches neither the array nor [data.json]. *)
Lemma store_upload_frame (file : option string) (w : world) :
  exists w', store_upload file w = Returns tt w'
    /\ artworks w' = artworks w /\ data_json w' = data_json w
    /\ log w' = log w.
Proof. destruct file; simpl; eauto. Qed.

(** C3. A creation in which the title, the date or the description is
    empty or absent is answered with the validation message, and nothing
    has been appended to the array and nothing written to [data.json]
    (no record, no write in the log); with the three fields present and
    no uploaded image the creation succeeds: the record is appended with
    [image = null], [liked = false], and the array is saved. *)
Theorem addArtwork_validates_before_mutation
  (title date description file : option string) (w : world) :
  (missing title \/ missing date \/ missing description ->
   exists w',
     post_addArtwork title date description file w
       = Returns (Send "All fields are required (except image).") w'
     /\ artworks w' = artworks w
     /\ data_json w' = data_json w
     /\ log w' = log w)
  /\ (~ missing title -> ~ missing date -> ~ missing description ->
      let arts' :=
        (artworks w
           ++ Obj (mkArtwork title date description ImageNull (Some false))
           :: nil)%list in
      post_addArtwork title date description None w
        = Returns (Redirect "/")
            (mkWorld arts' (Some (JSON_stringify arts')) (uploads w)
               (log w ++ WriteFile (JSON_stringify arts') :: nil))).
Proof.
  split.
  - intros Hmiss.
    assert (Hfalse : truthy title && truthy date && truthy description = false).
    { rewrite !andb_false_iff, !truthy_false_iff. tauto. }
    destruct (store_upload_frame file w) as (w' & Hup & Ha & Hd & Hl).
    exists w'. unfold post_addArtwork, bind. rewrite Hup, Hfalse. auto.
  - intros Ht Hd Hx. rewrite <- truthy_false_iff in Ht, Hd, Hx.
    apply not_false_is_true in Ht, Hd, Hx.
    unfold post_addArtwork, bind; simpl. rewrite Ht, Hd, Hx. reflexivity.
Qed.

Lemma addArtwork_validates_witness :
  (exists w',
     post_addArtwork (Some EmptyString) (Some "1889") (Some "Oil on canvas")
       (Some "1700000000000-42-night.png") empty_world
       = Returns (Send "All fields are required (except image).") w'
     /\ artworks w' = artworks empty_world
     /\ data_json w' = data_json empty_world
     /\ log w' = log empty_world)
  /\ post_addArtwork (Some "Starry Night") (Some "1889") (Some "Oil")
       None empty_world
     = Returns (Redirect "/")
         (let arts' :=
            Obj (mkArtwork (Some "Starry Night") (Some "1889") (Some "Oil")
                   ImageNull (Some false)) :: nil in
          mkWorld arts' (Some (JSON_stringify arts')) ∅
            (WriteFile (JSON_stringify arts') :: nil)).
Proof.
  split.
  - apply (addArtwork_validates_before_mutation (Some EmptyString)
             (Some "1889") (Some "Oil on canvas")
             (Some "1700000000000-42-night.png") empty_world).
    left. right. reflexivity.
  - apply (addArtwork_validates_before_mutation (Some "Starry Night")
             (Some "1889") (Some "Oil") None empty_world);
      unfold missing; intros [H|H]; discriminate.
Defined.

(** ** Reading a position *)

Lemma classify_index (id : string) (i : nat) :
  array_index id = Some i -> classify id = Index i.
Proof. intros H. unfold classify. rewrite H. reflexivity. Qed.

Lemma element_lookup (arts : list slot) (i : nat) (s : slot) :
  arts !! i = Some s -> element arts i = s.
Proof. intros H. unfold element. rewrite H. reflexivity. Qed.

Lemma element_out_of_range (arts : list slot) (i : nat) :
  length arts <= i -> element arts i = Hole.
Proof.
  intros H. unfold element. rewrite (proj2 (lookup_ge_None arts i)); auto.
Qed.

Lemma assign_in_range (arts : list slot) (i : nat) (v : slot) :
  i < length arts -> assign arts i v = <[i := v]> arts.
Proof. intros H. unfold assign. destruct (decide _); [reflexivity|lia]. Qed.

(** ** Update *)

(** C2. At a valid index, the update stores the submitted title, date and
    description in the record at that position and keeps the record's
    [image] and [liked]; the array has the same length, every other
    position is as before, and the array is saved. *)
Theorem updateArtwork_keeps_image_and_liked
  (w : world) (id : string) (i : nat) (a : Artwork)
  (newTitle newDate newDesc : option string) :
  array_index id = Some i ->
  artworks w !! i = Some (Obj a) ->
  let updated := mkArtwork newTitle newDate newDesc (image a) (liked a) in
  let arts' := <[i := Obj updated]> (artworks w) in
  post_updateArtwork id newTitle newDate newDesc w
    = Returns (Redirect "/")
        (mkWorld arts' (Some (JSON_stringify arts')) (uploads w)
           (log w ++ WriteFile (JSON_stringify arts') :: nil))
  /\ arts' !! i = Some (Obj updated)
  /\ image updated = image a
  /\ liked updated = liked a
  /\ length arts' = length (artworks w)
  /\ (forall j, j <> i -> arts' !! j = artworks w !! j).
Proof.
  intros Hid Hi updated arts'.
  pose proof (lookup_lt_Some _ _ _ Hi) as Hlt.
  repeat split.
  - unfold post_updateArtwork, bind; simpl.
    rewrite (classify_index _ _ Hid), (element_lookup _ _ _ Hi); simpl.
    rewrite (assign_in_range _ _ _ Hlt). reflexivity.
  - apply list_lookup_insert_eq, Hlt.
  - apply length_insert.
  - intros j Hj. apply list_lookup_insert_ne. congruence.
Qed.

Lemma updateArtwork_keeps_witness :
  let updated :=
    mkArtwork (Some "The Starry Night") (Some "June 1889") (Some "Oil")
      (image starry) (liked starry) in
  let arts' := <[0%nat := Obj updated]> (artworks gallery) in
  post_updateArtwork "0" (Some "The Starry Night") (Some "June 1889")
      (Some "Oil") gallery
    = Returns (Redirect "/")
        (mkWorld arts' (Some (JSON_stringify arts')) (uploads gallery)
           (log gallery ++ WriteFile (JSON_stringify arts') :: nil))
  /\ arts' !! 0%nat = Some (Obj updated)
  /\ image updated = image starry
  /\ liked updated = liked starry
  /\ length arts' = length (artworks gallery)
  /\ (forall j, j <> 0%nat -> arts' !! j = artworks gallery !! j).
Proof.
  apply (updateArtwork_keeps_image_and_liked gallery "0" 0 starry
           (Some "The Starry Night") (Some "June 1889") (Some "Oil"));
    reflexivity.
Defined.

(** ** Out of bounds *)

(** X4. Where [artworks[id]] is [undefined] or [null], the edit form and
    the deletion throw on the first property they read, before any
    effect. *)
Theorem get_and_delete_throw (w : world) (id : string) :
  classify id <> Named ->
  (forall i, classify id = Index i ->
     forall a, element (artworks w) i <> Obj a) ->
  get_updateArtwork id w = Throws TypeError w
  /\ post_deleteArtwork id w = Throws TypeError w.
Proof.
  intros Hnamed Hno.
  unfold get_updateArtwork, post_deleteArtwork, bind; simpl.
  destruct (classify id) as [i| |] eqn:Hc; [|auto|congruence].
  specialize (Hno i eq_refl).
  destruct (element (artworks w) i) as [| |a]; auto.
  destruct (Hno a eq_refl).
Qed.

Lemma get_and_delete_throw_witness :
  get_updateArtwork "-1" gallery = Throws TypeError gallery
  /\ post_deleteArtwork "-1" gallery = Throws TypeError gallery.
Proof.
  apply (get_and_delete_throw gallery "-1"); [discriminate|].
  intros i Hi. discriminate.
Defined.

(** The update has no such read: past the end it extends the array. *)
Lemma updateArtwork_past_the_end (w : world) (id : string) (i : nat)
  (title date description : option string) :
  array_index id = Some i ->
  length (artworks w) <= i ->
  let arts' :=
    (artworks w ++ replicate (i - length (artworks w)) Hole
       ++ Obj (mkArtwork title date description ImageAbsent None) :: nil)%list
  in
  post_updateArtwork id title date description w
    = Returns (Redirect "/")
        (mkWorld arts' (Some (JSON_stringify arts')) (uploads w)
           (log w ++ WriteFile (JSON_stringify arts') :: nil)).
Proof.
  intros Hid Hlen arts'.
  unfold post_updateArtwork, bind; simpl.
  rewrite (classify_index _ _ Hid), (element_out_of_range _ _ Hlen); simpl.
  unfold assign. destruct (decide _); [lia|reflexivity].
Qed.

(** C1, at the failing input. With two records in the catalogue, index 5
    is out of bounds; the edit form and the deletion throw and leave the
    process as it was, but [POST /updateArtwork/5] answers with the
    redirect, leaves an array of six positions (three of them holes, the
    sixth a record with neither [image] nor [liked]), and saves it: the
    reloaded document has [null] where the holes were, and the home page
    of a process started on it throws. *)
Theorem updateArtwork_out_of_bounds_corrupts :
  ~ valid_index (artworks gallery) "5"
  /\ get_updateArtwork "5" gallery = Throws TypeError gallery
  /\ post_deleteArtwork "5" gallery = Throws TypeError gallery
  /\ exists w' reloaded_arts,
      post_updateArtwork "5" (Some "Irises") (Some "1889") (Some "Garden")
        gallery = Returns (Redirect "/") w'
      /\ artworks w'
         = Obj starry :: Obj sunflowers :: Hole :: Hole :: Hole
             :: Obj (mkArtwork (Some "Irises") (Some "1889") (Some "Garden")
                       ImageAbsent None) :: nil
      /\ data_json w' = Some (JSON_stringify (artworks w'))
      /\ load (data_json w') = Loaded reloaded_arts
      /\ reloaded_arts
         = Obj starry :: Obj sunflowers :: Null :: Null :: Null
             :: Obj (mkArtwork (Some "Irises") (Some "1889") (Some "Garden")
                       ImageAbsent None) :: nil
      /\ forall w'', artworks w'' = reloaded_arts ->
           get_home None w'' = Throws TypeError w''.
Proof.
  split; [|split; [|split]].
  - intros (i & Hi & Hlt). vm_compute in Hi. injection Hi as <-.
    simpl in Hlt. lia.
  - reflexivity.
  - reflexivity.
  - eexists. eexists. split.
    { apply (updateArtwork_past_the_end gallery "5" 5);
        [reflexivity | simpl; lia]. }
    split; [reflexivity|]. split; [reflexivity|].
    split; [vm_compute; reflexivity|]. split; [reflexivity|].
    intros w'' Hw. unfold get_home, bind, read_artworks. rewrite Hw.
    reflexivity.
Qed.

(** ** The title invariant *)

(** C9, at the failing input. A record is created with a title, then
    [POST /updateArtwork/0] is sent an empty title: the handler stores it,
    so a reachable catalogue holds a record whose title is the empty
    string. *)
Theorem updateArtwork_stores_empty_title :
  exists w a,
    reachable w
    /\ artworks w !! 0%nat = Some (Obj a)
    /\ title a = Some EmptyString
    /\ ~ non_empty_text (title a).
Proof.
  set (w1 := world_after
               (post_addArtwork (Some "Irises") (Some "1889") (Some "Garden")
                  None empty_world)).
  set (w2 := world_after
               (post_updateArtwork "0" (Some EmptyString) (Some "1889")
                  (Some "Garden") w1)).
  exists w2, (mkArtwork (Some EmptyString) (Some "1889") (Some "Garden")
                ImageNull (Some false)).
  split; [|split; [|split]].
  - apply rtc_l with w1.
    { apply (step_create (Some "Irises") (Some "1889") (Some "Garden") None
               (Redirect "/")).
      vm_compute. reflexivity. }
    apply rtc_l with w2; [|apply rtc_refl].
    apply (step_update "0" (Some EmptyString) (Some "1889") (Some "Garden")
             (Redirect "/")).
    vm_compute. reflexivity.
  - vm_compute. reflexivity.
  - reflexivity.
  - intros (c & r & H). discriminate.
Qed.

(** ** Delete *)

Lemma creates_artworks (subs : list submission) (w : world) :
  Forall accepted subs ->
  exists w',
    creates subs w = Returns tt w'
    /\ artworks w' = (artworks w ++ map (fun s => Obj (record_of s)) subs)%list.
Proof.
  intros Hall. revert w.
  induction Hall as [|s rest Hs _ IH]; intros w.
  - exists w. simpl. rewrite app_nil_r. auto.
  - unfold accepted in Hs.
    destruct (store_upload_frame (sub_file s) w) as (w1 & Hup & Ha & _ & _).
    set (w2 := mkWorld (artworks w1 ++ Obj (record_of s) :: nil)
                 (Some (JSON_stringify
                          (artworks w1 ++ Obj (record_of s) :: nil)))
                 (uploads w1)
                 (log w1 ++ WriteFile
                    (JSON_stringify
                       (artworks w1 ++ Obj (record_of s) :: nil)) :: nil)).
    destruct (IH w2) as (w' & Hrun & Harts).
    exists w'. split.
    + simpl. unfold bind at 1. unfold post_addArtwork, bind at 1.
      rewrite Hup, Hs. simpl. exact Hrun.
    + rewrite Harts. simpl. rewrite Ha, <- app_assoc. reflexivity.
Qed.

(** Deleting at position [i] where a record stands: the array loses that
    position, whatever happens to the image file. *)
Lemma deleteArtwork_at_record (w : world) (id : string) (i : nat)
  (a : Artwork) :
  array_index id = Some i ->
  artworks w !! i = Some (Obj a) ->
  image_in_model w a ->
  exists w',
    post_deleteArtwork id w = Returns (Redirect "/") w'
    /\ artworks w' = delete i (artworks w)
    /\ data_json w' = Some (JSON_stringify (delete i (artworks w))).
Proof.
  intros Hid Hi Him.
  unfold post_deleteArtwork, bind; simpl.
  rewrite (classify_index _ _ Hid), (element_lookup _ _ _ Hi).
  unfold image_in_model in Him.
  destruct (image a) as [| |[|c r]]; simpl; eauto.
  unfold unlink_if_exists. destruct (decide _) as [Hin|Hout]; simpl; eauto.
  destruct Him as [Him|[Him|Him]]; [discriminate|contradiction|].
  rewrite Him. simpl. eauto.
Qed.

(** What a creation leaves under [public/uploads]. *)
Lemma addArtwork_uploads (title date description file : option string)
  (r : response) (w w' : world) :
  post_addArtwork title date description file w = Returns r w' ->
  uploads w'
  = match file with
    | Some name => {[name]} ∪ uploads w
    | None => uploads w
    end.
Proof.
  unfold post_addArtwork, bind, store_upload.
  destruct file as [name|];
    destruct (truthy title && truthy date && truthy description);
    simpl; intros [= _ <-]; reflexivity.
Qed.

(** The files of a run of creations are stored when the run ends. *)
Lemma creates_uploads (subs : list submission) :
  forall w w',
    creates subs w = Returns tt w' ->
    (forall name, name ∈ uploads w -> name ∈ uploads w')
    /\ (forall s name,
          s ∈ subs -> sub_file s = Some name -> name ∈ uploads w').
Proof.
  induction subs as [|s rest IH]; intros w w' H.
  - injection H as <-. split; [auto|].
    intros s name Hs. apply elem_of_nil in Hs. destruct Hs.
  - cbn [creates] in H. unfold bind at 1 in H.
    destruct (post_addArtwork (sub_title s) (sub_date s)
                (sub_description s) (sub_file s) w) as [r w1| |] eqn:Hadd;
      try discriminate.
    apply addArtwork_uploads in Hadd.
    destruct (IH _ _ H) as [Hkeep Hrest].
    assert (Hgrow : forall name, name ∈ uploads w -> name ∈ uploads w1).
    { intros name Hn. rewrite Hadd. destruct (sub_file s); [|exact Hn].
      apply elem_of_union. auto. }
    split; [auto|].
    intros s' name Hs' Hname. apply elem_of_cons in Hs' as [->|Hs'];
      [|eauto].
    apply Hkeep. rewrite Hadd, Hname.
    apply elem_of_union. left. apply elem_of_singleton. reflexivity.
Qed.

(** C4. In a catalogue built by successful creations, deleting at a valid
    position [k] removes that record and moves every later one down by
    one; the edit form for [k] then shows the record that stood at
    [k + 1], and throws when [k] was the last position. *)
Theorem deleteArtwork_shifts_down
  (subs : list submission) (w0 w : world) (id : string) (k : nat) :
  artworks w0 = nil ->
  Forall accepted subs ->
  creates subs w0 = Returns tt w ->
  array_index id = Some k ->
  k < length subs ->
  exists w',
    post_deleteArtwork id w = Returns (Redirect "/") w'
    /\ length (artworks w') = length subs - 1
    /\ (forall j, j < k -> artworks w' !! j = artworks w !! j)
    /\ (forall j, k <= j -> artworks w' !! j = artworks w !! S j)
    /\ (forall s, subs !! S k = Some s ->
          artworks w !! S k = Some (Obj (record_of s))
          /\ get_updateArtwork id w'
             = Returns (Form id (sub_title s) (sub_date s)
                          (sub_description s)) w')
    /\ (S k = length subs -> get_updateArtwork id w' = Throws TypeError w').
Proof.
  intros Hempty Hall Hrun Hid Hk.
  destruct (creates_artworks subs w0 Hall) as (w1 & Hrun1 & Harts).
  rewrite Hrun in Hrun1. injection Hrun1 as <-.
  rewrite Hempty in Harts. simpl in Harts.
  assert (Hat : forall j s, subs !! j = Some s ->
                  artworks w !! j = Some (Obj (record_of s))).
  { intros j s Hs. rewrite Harts.
    change (map (fun s => Obj (record_of s)) subs)
      with ((fun s => Obj (record_of s)) <$> subs).
    rewrite list_lookup_fmap, Hs. reflexivity. }
  assert (Hlen : length (artworks w) = length subs).
  { rewrite Harts. apply length_map. }
  destruct (lookup_lt_is_Some_2 subs k Hk) as [sk Hsk].
  assert (Him : image_in_model w (record_of sk)).
  { unfold image_in_model, record_of. cbn [image].
    destruct (sub_file sk) as [name|] eqn:Hfile; [|exact I].
    right. left.
    apply (proj2 (creates_uploads subs w0 w Hrun) sk name);
      [apply list_elem_of_lookup; eauto|exact Hfile]. }
  destruct (deleteArtwork_at_record w id k _ Hid (Hat _ _ Hsk) Him)
    as (w' & Hdel & Hd & _).
  exists w'. split; [exact Hdel|].
  split; [rewrite Hd, length_delete, Hlen; [reflexivity|eauto]|].
  split; [intros j Hj; rewrite Hd; apply list_lookup_delete_lt, Hj|].
  split; [intros j Hj; rewrite Hd; apply list_lookup_delete_ge, Hj|].
  split.
  - intros s Hs. split; [apply Hat, Hs|].
    unfold get_updateArtwork, bind; simpl.
    rewrite (classify_index _ _ Hid).
    rewrite (element_lookup _ _ (Obj (record_of s))); [reflexivity|].
    rewrite Hd, list_lookup_delete_ge by lia. apply Hat, Hs.
  - intros Hlast.
    unfold get_updateArtwork, bind; simpl.
    rewrite (classify_index _ _ Hid), element_out_of_range; [reflexivity|].
    rewrite Hd, length_delete, Hlen; [lia|eauto].
Qed.

Lemma deleteArtwork_shifts_witness :
  exists w',
    post_deleteArtwork "0" atelier = Returns (Redirect "/") w'
    /\ length (artworks w') = length three_submissions - 1
    /\ (forall j, j < 0 -> artworks w' !! j = artworks atelier !! j)
    /\ (forall j, 0 <= j -> artworks w' !! j = artworks atelier !! S j)
    /\ (forall s, three_submissions !! 1%nat = Some s ->
          artworks atelier !! 1%nat = Some (Obj (record_of s))
          /\ get_updateArtwork "0" w'
             = Returns (Form "0" (sub_title s) (sub_date s)
                          (sub_description s)) w')
    /\ (1 = length three_submissions ->
        get_updateArtwork "0" w' = Throws TypeError w').
Proof.
  apply (deleteArtwork_shifts_down three_submissions empty_world atelier
           "0" 0).
  - reflexivity.
  - repeat (constructor; [reflexivity|]). constructor.
  - vm_compute. reflexivity.
  - reflexivity.
  - simpl. lia.
Defined.

(** The specification's scenario: three creations, then the deletion at
    0; the home page lists the second and third records at positions 0
    and 1, and the edit form for 0 shows the second record. *)
Example create_delete_reindex :
  let w := world_after (post_deleteArtwork "0" atelier) in
  get_home None w
  = Returns
      (Page "index.html"
         ((0%nat, mkArtwork (Some "Sunflowers") (Some "1888")
                    (Some "Still life") ImageNull (Some false))
          :: (1%nat, mkArtwork (Some "Irises") (Some "1889") (Some "Garden")
                       ImageNull (Some false))
          :: nil) EmptyString) w
  /\ get_updateArtwork "0" w
     = Returns (Form "0" (Some "Sunflowers") (Some "1888")
                  (Some "Still life")) w
  /\ get_updateArtwork "2" w = Throws TypeError w.
Proof. vm_compute. repeat split; reflexivity. Qed.

(** X3. Deleting a record whose image is a plain file name (one entry
    of [public/uploads]: no separator, neither [.] nor [..]) removes the
    image file when it is there, and succeeds all the same when it is
    not. A name that [path.join] resolves to the directory itself or to a
    path outside it is not covered: there [unlinkSync] can throw before
    the record is removed. *)
Theorem deleteArtwork_unlinks_image (w : world) (id : string) (i : nat)
  (a : Artwork) (c : ascii) (r : string) :
  array_index id = Some i ->
  artworks w !! i = Some (Obj a) ->
  image a = ImageFile (String c r) ->
  plain_name (String c r) = true ->
  let text := JSON_stringify (delete i (artworks w)) in
  exists w',
    post_deleteArtwork id w = Returns (Redirect "/") w'
    /\ artworks w' = delete i (artworks w)
    /\ uploads w' = uploads w ∖ {[String c r]}
    /\ (String c r ∈ uploads w ->
        log w' = (log w ++ Unlink (String c r) :: WriteFile text :: nil)%list)
    /\ (String c r ∉ uploads w ->
        log w' = (log w ++ WriteFile text :: nil)%list).
Proof.
  intros Hid Hi Him Hplain text.
  unfold post_deleteArtwork, bind, read_artworks.
  rewrite (classify_index _ _ Hid), (element_lookup _ _ _ Hi), Him.
  unfold unlink_if_exists. rewrite Hplain.
  destruct (decide (String c r ∈ uploads w)) as [Hin|Hout];
    eexists; (split; [reflexivity|]); cbn [artworks uploads log];
    (split; [reflexivity|]).
  - split; [reflexivity|]. split; [|intros Hno; contradiction].
    intros _. rewrite <- app_assoc. reflexivity.
  - split; [apply set_eq; intros x; rewrite elem_of_difference,
             elem_of_singleton; split; [intros Hx|tauto];
           split; [exact Hx|congruence]|].
    split; [intros Hyes; contradiction|]. intros _. reflexivity.
Qed.

Lemma deleteArtwork_unlinks_image_witness :
  let text := JSON_stringify (delete 0%nat (artworks gallery)) in
  exists w',
    post_deleteArtwork "0" gallery = Returns (Redirect "/") w'
    /\ artworks w' = delete 0%nat (artworks gallery)
    /\ uploads w' = uploads gallery ∖ {["1700000000000-42-night.png"]}
    /\ ("1700000000000-42-night.png" ∈ uploads gallery ->
        log w' = (log gallery
                  ++ Unlink "1700000000000-42-night.png"
                  :: WriteFile text :: nil)%list)
    /\ ("1700000000000-42-night.png" ∉ uploads gallery ->
        log w' = (log gallery ++ WriteFile text :: nil)%list).
Proof.
  apply (deleteArtwork_unlinks_image gallery "0" 0 starry); reflexivity.
Defined.

(** ** Toggling the like *)

Lemma digit_is_no_sign (c : ascii) (d : N) :
  digit_value 10 c = Some d ->
  is_StrWhiteSpaceChar c = false
  /\ Ascii.eqb c "-" = false /\ Ascii.eqb c "+" = false.
Proof.
  destruct c as [[] [] [] [] [] [] [] []]; vm_compute; intros H;
    try discriminate; auto.
Qed.

(** On the canonical string of an array index, [parseInt] reads that
    index. *)
Lemma parseInt_array_index (id : string) (i : nat) :
  array_index id = Some i ->
  index_of_number (parseInt id) = Some i.
Proof.
  unfold array_index. intros H.
  destruct (digits 10 id None) as [n|] eqn:Hd; [|discriminate].
  destruct ((n <? 4294967295)%N) eqn:Hn; simpl in H; [|discriminate].
  destruct (String.eqb _ id) eqn:Hcanon; [|discriminate].
  injection H as <-. apply N.ltb_lt in Hn.
  destruct id as [|c r]; [discriminate|].
  simpl in Hd. destruct (digit_value 10 c) as [d|] eqn:Hc; [|discriminate].
  destruct (digit_is_no_sign c d Hc) as (Hws & Hminus & Hplus).
  assert (Hparse : parseInt (String c r) = Some (Z.of_N n)).
  { unfold parseInt. simpl trim_start. rewrite Hws.
    assert (Hsign :
      match String c r with
      | String "-" r0 => (true, r0)
      | String "+" r0 => (false, r0)
      | _ => (false, String c r)
      end = (false, String c r)).
    { destruct c as [[] [] [] [] [] [] [] []]; try reflexivity;
        vm_compute in Hminus, Hplus; discriminate. }
    rewrite Hsign.
    assert (Hradix :
      match String c r with
      | String "0" (String "x" r0) => (16%N, r0)
      | String "0" (String "X" r0) => (16%N, r0)
      | _ => (10%N, String c r)
      end = (10%N, String c r)).
    { destruct r as [|x r']; [destruct c as [[] [] [] [] [] [] [] []];
                               reflexivity|].
      destruct (Ascii.eqb c "0") eqn:Hzero.
      - apply Ascii.eqb_eq in Hzero. subst c.
        destruct (digit_value 10 x) as [dx|] eqn:Hx.
        + destruct x as [[] [] [] [] [] [] [] []]; try reflexivity;
            vm_compute in Hx; discriminate.
        + vm_compute in Hc. injection Hc as <-.
          simpl in Hd. rewrite Hx in Hd. injection Hd as <-.
          vm_compute in Hcanon. discriminate.
      - destruct c as [[] [] [] [] [] [] [] []]; try reflexivity;
          vm_compute in Hzero; discriminate. }
    rewrite Hradix. simpl digits. rewrite Hc, Hd. reflexivity. }
  rewrite Hparse. unfold index_of_number.
  destruct ((0 <=? Z.of_N n)%Z && (Z.of_N n <? 4294967295)%Z) eqn:Hrange.
  - f_equal. lia.
  - apply andb_false_iff in Hrange as [Hr|Hr].
    + apply Z.leb_gt in Hr. lia.
    + apply Z.ltb_ge in Hr. lia.
Qed.

Lemma toggle_target_element (arts : list slot) (id : string) (i : nat)
  (a : Artwork) :
  toggle_target arts id = Some (i, a) ->
  index_of_number (parseInt id) = Some i /\ element arts i = Obj a.
Proof.
  unfold toggle_target.
  destruct (index_of_number (parseInt id)) as [j|]; [|discriminate].
  destruct (element arts j) as [| |b] eqn:He; try discriminate.
  intros [= <- <-]. auto.
Qed.

(** The request at a key that denotes the record at position [i]. *)
Lemma toggleLike_at_record (w : world) (id : string) (i : nat)
  (a : Artwork) :
  index_of_number (parseInt id) = Some i ->
  element (artworks w) i = Obj a ->
  let arts' :=
    <[i := Obj (mkArtwork (title a) (date a) (description a) (image a)
                  (Some (not_liked (liked a))))]> (artworks w) in
  post_toggleLike id w
    = Returns (Redirect "/")
        (mkWorld arts' (Some (JSON_stringify arts')) (uploads w)
           (log w ++ WriteFile (JSON_stringify arts') :: nil)).
Proof.
  intros Hi He arts'. unfold post_toggleLike, bind, read_artworks.
  rewrite Hi, He. reflexivity.
Qed.

(** C6, as the handler has it. The handler reads the index with
    [parseInt] first. Where [artworks[parseInt(id)]] is no record (the
    integer prefix is missing, negative or not below the length, or the
    position holds no record) the request is answered with the redirect
    and the process is exactly as before: same array, same [data.json],
    nothing written. Where it is the record at position [i], the record's
    [liked] is inverted in place and the array is saved. Every valid index
    (the canonical string of a position that holds a record) denotes that
    record. *)
Theorem toggleLike_follows_parseInt (w : world) (id : string) :
  (toggle_target (artworks w) id = None ->
   post_toggleLike id w = Returns (Redirect "/") w)
  /\ (forall i a, toggle_target (artworks w) id = Some (i, a) ->
      let arts' :=
        <[i := Obj (mkArtwork (title a) (date a) (description a) (image a)
                      (Some (not_liked (liked a))))]> (artworks w) in
      post_toggleLike id w
        = Returns (Redirect "/")
            (mkWorld arts' (Some (JSON_stringify arts')) (uploads w)
               (log w ++ WriteFile (JSON_stringify arts') :: nil)))
  /\ (forall i a, array_index id = Some i ->
      artworks w !! i = Some (Obj a) ->
      toggle_target (artworks w) id = Some (i, a))
  /\ (parseInt id = None -> toggle_target (artworks w) id = None)
  /\ (forall z, parseInt id = Some z ->
      (z < 0 \/ Z.of_nat (length (artworks w)) <= z)%Z ->
      toggle_target (artworks w) id = None).
Proof.
  split; [|split; [|split; [|split]]].
  - unfold toggle_target, post_toggleLike, bind; simpl.
    destruct (index_of_number (parseInt id)) as [i|]; [|reflexivity].
    destruct (element (artworks w) i); try reflexivity. discriminate.
  - intros i a Ht arts'.
    destruct (toggle_target_element _ _ _ _ Ht) as [Hi He].
    apply toggleLike_at_record; assumption.
  - intros i a Hid Hi. unfold toggle_target.
    rewrite (parseInt_array_index _ _ Hid), (element_lookup _ _ _ Hi).
    reflexivity.
  - intros Hnan. unfold toggle_target. rewrite Hnan. reflexivity.
  - intros z Hz Hout. unfold toggle_target. rewrite Hz.
    unfold index_of_number.
    destruct ((0 <=? z)%Z && (z <? 4294967295)%Z) eqn:Hrange;
      [|reflexivity].
    apply andb_true_iff in Hrange as [Hlo _]. apply Z.leb_le in Hlo.
    rewrite element_out_of_range; [reflexivity|lia].
Qed.

Lemma toggleLike_follows_parseInt_witness :
  post_toggleLike "7" gallery = Returns (Redirect "/") gallery
  /\ post_toggleLike "1" gallery
     = Returns (Redirect "/")
         (let arts' :=
            <[1%nat := Obj (mkArtwork (title sunflowers) (date sunflowers)
                              (description sunflowers) (image sunflowers)
                              (Some true))]> (artworks gallery) in
          mkWorld arts' (Some (JSON_stringify arts')) (uploads gallery)
            (log gallery ++ WriteFile (JSON_stringify arts') :: nil)).
Proof.
  split.
  - apply (proj1 (toggleLike_follows_parseInt gallery "7")). reflexivity.
  - apply (proj1 (proj2 (toggleLike_follows_parseInt gallery "1"))
             1%nat sunflowers).
    reflexivity.
Defined.

(** C6 as stated fails: ["1.9"] is no valid index (it is not the
    canonical string of a position), yet the request inverts [liked] of the
    record at position 1 and rewrites [data.json]. *)
Lemma toggleLike_invalid_index_counterexample :
  ~ valid_index (artworks gallery) "1.9"
  /\ exists w',
      post_toggleLike "1.9" gallery = Returns (Redirect "/") w'
      /\ artworks w' <> artworks gallery
      /\ data_json w' <> data_json gallery.
Proof.
  split.
  - intros (i & Hi & _). vm_compute in Hi. discriminate.
  - eexists. split.
    + apply (toggleLike_at_record gallery "1.9" 1 sunflowers); reflexivity.
    + split; intros H; vm_compute in H; discriminate.
Qed.

(** C10. [parseInt] keeps the integer prefix of the index: ["1.9"] is not
    an array index, [parseInt] reads 1 from it, and in every catalogue
    whose position 1 holds a record the request is no no-op: it answers
    with the redirect, the record at position 1 has its [liked] flipped
    (true becomes false; false, and a [liked] that was never set, become
    true), the array is no longer what it was, and it is saved. *)
Theorem toggleLike_reads_integer_prefix (w : world) (a : Artwork) :
  artworks w !! 1%nat = Some (Obj a) ->
  array_index "1.9" = None
  /\ parseInt "1.9" = Some 1%Z
  /\ let flipped :=
       match liked a with
       | Some true => false
       | Some false => true
       | None => true
       end in
     let arts' :=
       <[1%nat := Obj (mkArtwork (title a) (date a) (description a)
                         (image a) (Some flipped))]>
         (artworks w) in
     post_toggleLike "1.9" w
       = Returns (Redirect "/")
           (mkWorld arts' (Some (JSON_stringify arts')) (uploads w)
              (log w ++ WriteFile (JSON_stringify arts') :: nil))
     /\ arts' !! 1%nat
        = Some (Obj (mkArtwork (title a) (date a) (description a) (image a)
                       (Some flipped)))
     /\ liked a <> Some flipped
     /\ arts' <> artworks w.
Proof.
  intros Hi. split; [reflexivity|]. split; [reflexivity|].
  intros flipped arts'.
  assert (Hflag : not_liked (liked a) = flipped)
    by (unfold flipped; destruct (liked a) as [[|]|]; reflexivity).
  assert (Hnew : arts' !! 1%nat
                 = Some (Obj (mkArtwork (title a) (date a) (description a)
                                (image a) (Some flipped))))
    by (apply list_lookup_insert_eq, (lookup_lt_Some _ _ _ Hi)).
  assert (Hflip : liked a <> Some flipped)
    by (unfold flipped; destruct (liked a) as [[|]|]; discriminate).
  split; [|split; [exact Hnew|split; [exact Hflip|]]].
  - unfold arts'. rewrite <- Hflag.
    apply toggleLike_at_record; [reflexivity|apply element_lookup, Hi].
  - intros Heq. rewrite Heq, Hi in Hnew. injection Hnew as Ha.
    apply Hflip. rewrite Ha at 1. reflexivity.
Qed.

Lemma toggleLike_reads_integer_prefix_witness :
  array_index "1.9" = None
  /\ parseInt "1.9" = Some 1%Z
  /\ let arts' :=
       <[1%nat := Obj (mkArtwork (Some "Sunflowers") (Some "1888")
                         (Some "Still life") ImageNull (Some true))]>
         (artworks gallery) in
     post_toggleLike "1.9" gallery
       = Returns (Redirect "/")
           (mkWorld arts' (Some (JSON_stringify arts')) (uploads gallery)
              (log gallery ++ WriteFile (JSON_stringify arts') :: nil))
     /\ arts' !! 1%nat
        = Some (Obj (mkArtwork (Some "Sunflowers") (Some "1888")
                       (Some "Still life") ImageNull (Some true)))
     /\ liked sunflowers <> Some true
     /\ arts' <> artworks gallery.
Proof.
  apply (toggleLike_reads_integer_prefix gallery sunflowers). reflexivity.
Defined.

(** X2. Toggling twice gives the array back, for a record whose [liked]
    is a boolean. *)
Theorem toggleLike_twice (w : world) (id : string) (i : nat) (a : Artwork)
  (b : bool) :
  toggle_target (artworks w) id = Some (i, a) ->
  liked a = Some b ->
  exists w1 w2,
    post_toggleLike id w = Returns (Redirect "/") w1
    /\ post_toggleLike id w1 = Returns (Redirect "/") w2
    /\ artworks w1 <> artworks w
    /\ artworks w2 = artworks w
    /\ data_json w2 = Some (JSON_stringify (artworks w)).
Proof.
  intros Ht Hb.
  destruct (toggle_target_element _ _ _ _ Ht) as [Hi He].
  assert (Hlook : artworks w !! i = Some (Obj a)).
  { unfold element in He. destruct (artworks w !! i) as [s|]; congruence. }
  pose proof (lookup_lt_Some _ _ _ Hlook) as Hlt.
  destruct a as [t d x im l]. simpl in Hb. subst l.
  eexists. eexists.
  split; [apply (toggleLike_at_record w id i _ Hi He)|].
  split.
  { apply toggleLike_at_record; [exact Hi|]. cbn [artworks].
    apply element_lookup, list_lookup_insert_eq, Hlt. }
  cbn [artworks data_json title date description image liked].
  assert (Hback :
    <[i := Obj (mkArtwork t d x im
                  (Some (not_liked (Some (not_liked (Some b))))))]>
      (<[i := Obj (mkArtwork t d x im (Some (not_liked (Some b))))]>
         (artworks w)) = artworks w).
  { rewrite list_insert_insert_eq. apply list_insert_id.
    rewrite Hlook. destruct b; reflexivity. }
  split; [|split; [exact Hback|rewrite Hback; reflexivity]].
  intros Heq.
  assert (Hi' : <[i := Obj (mkArtwork t d x im (Some (not_liked (Some b))))]>
                  (artworks w) !! i
                = Some (Obj (mkArtwork t d x im (Some (not_liked (Some b)))))).
  { apply list_lookup_insert_eq, Hlt. }
  rewrite Heq, Hlook in Hi'. destruct b; discriminate.
Qed.

Lemma toggleLike_twice_witness :
  exists w1 w2,
    post_toggleLike "0" gallery = Returns (Redirect "/") w1
    /\ post_toggleLike "0" w1 = Returns (Redirect "/") w2
    /\ artworks w1 <> artworks gallery
    /\ artworks w2 = artworks gallery
    /\ data_json w2 = Some (JSON_stringify (artworks gallery)).
Proof.
  apply (toggleLike_twice gallery "0" 0 starry true); reflexivity.
Defined.

(** ** Texts put together *)

Lemma string_app_nil_l (s : string) : EmptyString ++ s = s.
Proof. reflexivity. Qed.

Lemma string_app_cons (c : ascii) (a b : string) :
  String c a ++ b = String c (a ++ b).
Proof. reflexivity. Qed.

Lemma string_app_nil_r (s : string) : s ++ EmptyString = s.
Proof.
  induction s as [|c s IH]; [reflexivity|].
  rewrite string_app_cons, IH. reflexivity.
Qed.

Lemma string_app_assoc (a b c : string) : (a ++ b) ++ c = a ++ b ++ c.
Proof.
  induction a as [|x a IH]; [reflexivity|].
  rewrite !string_app_cons, IH. reflexivity.
Qed.

Lemma string_app_length (a b : string) :
  String.length (a ++ b) = String.length a + String.length b.
Proof.
  induction a as [|x a IH]; [reflexivity|].
  rewrite string_app_cons. simpl. rewrite IH. reflexivity.
Qed.

Lemma skip_app (a b : string) : skip (String.length a) (a ++ b) = b.
Proof.
  induction a as [|x a IH]; [destruct b; reflexivity|].
  rewrite string_app_cons. exact IH.
Qed.

(** Two ways of cutting one text: the shorter first part is the start of
    the longer. *)
Lemma string_app_prefix (a b c d : string) :
  a ++ b = c ++ d ->
  String.length a <= String.length c ->
  exists e, c = a ++ e /\ b = e ++ d.
Proof.
  revert c. induction a as [|x a IH]; intros c H Hlen.
  - exists c. auto.
  - destruct c as [|y c]; simpl in Hlen; [lia|].
    rewrite !string_app_cons in H. injection H as -> H.
    destruct (IH c H) as (e & -> & ->); [lia|]. eauto.
Qed.

(** ** Search *)

Lemma startsWith_spec (s q : string) :
  startsWith s q = true <-> exists post, s = String.append q post.
Proof.
  revert s. induction q as [|b q IH]; intros s; simpl.
  - split; eauto.
  - destruct s as [|a s].
    + split; [discriminate|]. intros [post H]. discriminate.
    + rewrite andb_true_iff, IH. split.
      * intros [Hab [post ->]]. apply Ascii.eqb_eq in Hab. subst. eauto.
      * intros [post H]. injection H as -> ->.
        split; [apply Ascii.eqb_refl|eauto].
Qed.

(** [includes] is substring containment. *)
Lemma includes_spec (s q : string) :
  includes s q = true
  <-> exists pre post, s = String.append pre (String.append q post).
Proof.
  induction s as [|a s IH]; simpl.
  - rewrite orb_false_r, startsWith_spec. split.
    + intros [post H]. exists EmptyString, post. exact H.
    + intros (pre & post & H). destruct pre as [|c pre]; [eauto|].
      discriminate.
  - rewrite orb_true_iff, startsWith_spec, IH. split.
    + intros [[post H]|(pre & post & ->)].
      * exists EmptyString, post. exact H.
      * exists (String a pre), post. reflexivity.
    + intros (pre & post & H). destruct pre as [|c pre].
      * left. exists post. exact H.
      * right. injection H as -> ->. eauto.
Qed.

Lemma matches_spec (t q : string) :
  matches (Some t) q = Some true <-> contains_ci (Some t) q.
Proof.
  unfold matches, contains_ci. split.
  - intros [= H]. apply includes_spec in H as (pre & post & H). eauto.
  - intros (t' & pre & post & [= <-] & H). f_equal.
    apply includes_spec. eauto.
Qed.







(** *** Lower case and the case of a letter *)










(** The specification's example: the query [abc] over the titles Abcdef,
    xyz, ABC123 lists positions 0 and 2; the favourites view lists the
    liked one of them. *)
Example search_abc :
  get_home (Some "abc") lettered
  = Returns
      (Page "index.html"
         ((0%nat, mkArtwork (Some "Abcdef") (Some "2001") (Some "first")
                    ImageNull (Some true))
          :: (2%nat, mkArtwork (Some "ABC123") (Some "2003") (Some "third")
                       ImageNull (Some false))
          :: nil) "abc") lettered
  /\ get_favourites (Some "abc") lettered
     = Returns
         (Page "favourites.html"
            ((0%nat, mkArtwork (Some "Abcdef") (Some "2001") (Some "first")
                       ImageNull (Some true)) :: nil) "abc") lettered.
Proof. split; reflexivity. Qed.

(** ** The document read back *)

Module JsonFacts.
Import Json.

Lemma read_units_quote_unit (c : ascii) (x : string) (s rest : string) :
  read_units x = Ok (Some s) rest ->
  read_units (quote_unit c x) = Ok (Some (String c s)) rest.
Proof.
  intros H.
  destruct c as [[] [] [] [] [] [] [] []];
    match goal with
    | |- read_units (quote_unit ?c x) = _ =>
        let t := eval vm_compute in (quote_unit c x) in
        change (quote_unit c x) with t
    end;
    simpl; rewrite H; reflexivity.
Qed.

(** A string literal is read back as the string it quotes. *)
Lemma read_units_quote_units (s : string) (k : string) :
  read_units (quote_units s (String dquote k)) = Ok (Some s) k.
Proof.
  induction s as [|c r IH]; simpl.
  - reflexivity.
  - apply read_units_quote_unit, IH.
Qed.

Lemma json_induction (P : json -> Prop) :
  P JNull ->
  (forall b, P (JBool b)) ->
  (forall s, P (JString s)) ->
  (forall l, Forall P l -> P (JArray l)) ->
  (forall ms, Forall (fun pv => P (snd pv)) ms -> P (JObject ms)) ->
  forall j, P j.
Proof.
  intros Hn Hb Hs Ha Ho. fix IH 1. intros [|b|s|l|ms].
  - exact Hn.
  - apply Hb.
  - apply Hs.
  - apply Ha. induction l as [|v l IHl]; constructor; [apply IH|exact IHl].
  - apply Ho.
    induction ms as [|[p v] ms IHms]; constructor; [apply IH|exact IHms].
Qed.

Lemma skip_ws_indent (n : nat) (s : string) :
  skip_ws (indent n s) = skip_ws s.
Proof. induction n as [|n IH]; simpl; auto. Qed.

Lemma skip_ws_break (n : nat) (s : string) :
  skip_ws (break n s) = skip_ws s.
Proof. unfold break. simpl. apply skip_ws_indent. Qed.

Lemma write_head (n : nat) (j : json) (k : string) :
  exists c r, write n j k = String c r /\ value_head c.
Proof.
  unfold value_head.
  destruct j as [|[|]|s|[|v vs]|[|[p v] ms]]; simpl; eauto 10.
Qed.

Lemma skip_ws_head (c : ascii) (r : string) :
  value_head c -> skip_ws (String c r) = String c r.
Proof. intros [->|[->|[->|[->|[->| ->]]]]]; reflexivity. Qed.

Lemma skip_ws_write (n : nat) (j : json) (k : string) :
  skip_ws (write n j k) = write n j k.
Proof.
  destruct (write_head n j k) as (c & r & -> & Hc).
  apply skip_ws_head, Hc.
Qed.

Lemma skip_ws_idempotent (s : string) : skip_ws (skip_ws s) = skip_ws s.
Proof.
  induction s as [|c r IH]; simpl; [reflexivity|].
  destruct (is_ws c) eqn:Hc; [exact IH|]. simpl. rewrite Hc. reflexivity.
Qed.

(** The readers look at a text past its leading white space only. *)
Lemma read_value_skip_ws (f : nat) (s : string) :
  read_value f (skip_ws s) = read_value f s.
Proof.
  destruct f as [|f]; [reflexivity|]. simpl.
  rewrite skip_ws_idempotent. reflexivity.
Qed.

Lemma next_is_break (c : ascii) (n : nat) (s : string) :
  next_is c (break n s) = next_is c s.
Proof. unfold next_is. rewrite skip_ws_break. reflexivity. Qed.

Lemma read_value_break (f n : nat) (s : string) :
  read_value f (break n s) = read_value f (skip_ws s).
Proof.
  rewrite <- (read_value_skip_ws f (break n s)), skip_ws_break. reflexivity.
Qed.

Lemma read_value_space (f : nat) (s : string) :
  read_value f (String " " s) = read_value f (skip_ws s).
Proof. rewrite <- (read_value_skip_ws f (String " " s)). reflexivity. Qed.

(** No written value starts with a closing bracket. *)
Lemma next_is_write (n : nat) (j : json) (k : string) :
  next_is "]" (write n j k) = None.
Proof.
  destruct (write_head n j k) as (c & r & -> & Hc).
  destruct Hc as [->|[->|[->|[->|[->| ->]]]]]; reflexivity.
Qed.

(** One step of each reader, on the text it expects. *)
Lemma read_value_array (f : nat) (r : string) :
  next_is "]" r = None ->
  read_value (S f) (String "[" r)
  = map_parsed (option_map JArray) (read_elements f r).
Proof. intros Hr. simpl. rewrite Hr. reflexivity. Qed.

Lemma read_value_object (f : nat) (r : string) :
  next_is "}" r = None ->
  read_value (S f) (String "{" r)
  = map_parsed (option_map JObject) (read_members f r).
Proof. intros Hr. simpl. rewrite Hr. reflexivity. Qed.

Lemma read_elements_step (f : nat) (s : string) :
  read_elements (S f) s
  = match read_value f s with
    | Ok v rest =>
        match next_is "]" rest, next_is "," rest with
        | Some rest', _ => Ok (option_cons v (Some nil)) rest'
        | None, Some rest' =>
            map_parsed (option_cons v) (read_elements f rest')
        | None, None => SyntaxError
        end
    | SyntaxError => SyntaxError
    | OutOfFuel => OutOfFuel
    end.
Proof. reflexivity. Qed.

Lemma read_members_quoted (f n : nat) (p : string) (rest : string) :
  read_members (S f) (break n (QuoteJSONString p rest))
  = match next_is ":" rest with
    | Some rest' =>
        match read_value f rest' with
        | Ok v rest'' =>
            match next_is "}" rest'', next_is "," rest'' with
            | Some rest3, _ =>
                Ok (option_cons (option_pair (Some p) v) (Some nil)) rest3
            | None, Some rest3 =>
                map_parsed (option_cons (option_pair (Some p) v))
                  (read_members f rest3)
            | None, None => SyntaxError
            end
        | SyntaxError => SyntaxError
        | OutOfFuel => OutOfFuel
        end
    | None => SyntaxError
    end.
Proof.
  cbn [read_members]. rewrite next_is_break. unfold QuoteJSONString.
  change (next_is dquote (String dquote ?s)) with (Some s).
  cbv beta iota. rewrite read_units_quote_units. reflexivity.
Qed.

Lemma read_elements_written (n : nat) (k : string) (vs : list json) :
  Forall reads_back vs ->
  forall v f,
    reads_back v ->
    S (need v) + list_sum (map (fun v => S (need v)) vs) <= f ->
    read_elements f
      (break (S n) (write (S n) v (more_elements (write (S n)) n k vs)))
    = Ok (Some (v :: vs)) k.
Proof.
  induction 1 as [|v' vs Hv' _ IH]; intros v f Hv Hf;
    some_fuel f Hf; simpl in Hf;
    rewrite read_elements_step, read_value_break, skip_ws_write, Hv by lia;
    simpl more_elements.
  - rewrite next_is_break. reflexivity.
  - change (next_is "]" (String "," ?s)) with (@None string).
    change (next_is "," (String "," ?s)) with (Some s). cbv beta iota.
    rewrite (IH v' f Hv') by lia. reflexivity.
Qed.

Lemma read_members_written (n : nat) (k : string)
  (ms : list (string * json)) :
  Forall (fun pv => reads_back (snd pv)) ms ->
  forall p v f,
    reads_back v ->
    S (need v) + list_sum (map (fun pv => S (need (snd pv))) ms) <= f ->
    read_members f
      (break (S n) (QuoteJSONString p (String ":" (String " "
         (write (S n) v (more_members (write (S n)) n k ms))))))
    = Ok (Some ((p, v) :: ms)) k.
Proof.
  induction 1 as [|[p' v'] ms Hv' _ IH]; intros p v f Hv Hf;
    some_fuel f Hf; simpl in Hf;
    rewrite read_members_quoted;
    change (next_is ":" (String ":" ?s)) with (Some s); cbv beta iota;
    rewrite read_value_space, skip_ws_write, Hv by lia;
    simpl more_members.
  - rewrite next_is_break. reflexivity.
  - change (next_is "}" (String "," ?s)) with (@None string).
    change (next_is "," (String "," ?s)) with (Some s). cbv beta iota.
    simpl in Hv'. rewrite (IH p' v' f Hv') by lia. reflexivity.
Qed.

(** [read_value] inverts [write]. *)
Theorem read_value_write (j : json) : reads_back j.
Proof.
  induction j as [|b|s|l Hl|ms Hms] using json_induction;
    intros n k f Hf; some_fuel f Hf.
  - reflexivity.
  - destruct b; reflexivity.
  - simpl write. unfold QuoteJSONString.
    change (read_value (S f) (String dquote ?r))
      with (map_parsed (option_map JString) (read_units r)).
    rewrite read_units_quote_units. reflexivity.
  - destruct Hl as [|v vs Hv Hvs]; [reflexivity|].
    simpl in Hf. simpl write.
    rewrite read_value_array by (rewrite next_is_break; apply next_is_write).
    rewrite (read_elements_written n k vs Hvs v f Hv) by lia.
    reflexivity.
  - destruct Hms as [|[p v] ms Hv Hms]; [reflexivity|].
    simpl in Hf, Hv. simpl write.
    rewrite read_value_object by (rewrite next_is_break; reflexivity).
    rewrite (read_members_written n k ms Hms p v f Hv) by lia.
    reflexivity.
Qed.

Lemma length_indent (n : nat) (s : string) :
  String.length (indent n s) = 2 * n + String.length s.
Proof. induction n as [|n IH]; simpl; [reflexivity|rewrite IH; lia]. Qed.

Lemma length_break (n : nat) (s : string) :
  String.length (break n s) = S (2 * n + String.length s).
Proof. unfold break. simpl. rewrite length_indent. reflexivity. Qed.

Lemma length_quote_unit (c : ascii) (k : string) :
  String.length k < String.length (quote_unit c k).
Proof.
  unfold quote_unit.
  repeat match goal with
         | |- context [if ?b then _ else _] => destruct b
         end; simpl; lia.
Qed.

Lemma length_quote_units (s k : string) :
  String.length k <= String.length (quote_units s k).
Proof.
  induction s as [|c r IH]; simpl; [lia|].
  pose proof (length_quote_unit c (quote_units r k)). lia.
Qed.

Lemma length_QuoteJSONString (s k : string) :
  2 + String.length k <= String.length (QuoteJSONString s k).
Proof.
  unfold QuoteJSONString. simpl.
  pose proof (length_quote_units s (String dquote k)). simpl in *. lia.
Qed.

Lemma length_more_elements (n : nat) (k : string) (vs : list json) :
  Forall long_enough vs ->
  list_sum (map (fun v => S (need v)) vs) + String.length k
  < String.length (more_elements (write (S n)) n k vs).
Proof.
  unfold list_sum. induction 1 as [|v vs Hv _ IH];
    cbn [more_elements map fold_right].
  - rewrite length_break. simpl. lia.
  - change (String.length (String "," ?s)) with (S (String.length s)).
    rewrite length_break. specialize (Hv (S n)
      (more_elements (write (S n)) n k vs)). lia.
Qed.

Lemma length_more_members (n : nat) (k : string)
  (ms : list (string * json)) :
  Forall (fun pv => long_enough (snd pv)) ms ->
  list_sum (map (fun pv => S (need (snd pv))) ms) + String.length k
  < String.length (more_members (write (S n)) n k ms).
Proof.
  unfold list_sum. induction 1 as [|[p v] ms Hv _ IH];
    cbn [more_members map fold_right snd].
  - rewrite length_break. simpl. lia.
  - change (String.length (String "," ?s)) with (S (String.length s)).
    rewrite length_break.
    pose proof (length_QuoteJSONString p (String ":" (String " "
      (write (S n) v (more_members (write (S n)) n k ms))))) as Hq.
    specialize (Hv (S n) (more_members (write (S n)) n k ms)).
    cbn [snd] in Hv.
    change (String.length (String ":" (String " " ?s)))
      with (S (S (String.length s))) in Hq. lia.
Qed.

Lemma need_le_length (j : json) : long_enough j.
Proof.
  induction j as [|b|s|l Hl|ms Hms] using json_induction; intros n k.
  - simpl. lia.
  - destruct b; simpl; lia.
  - simpl need. simpl write.
    pose proof (length_QuoteJSONString s k). lia.
  - destruct Hl as [|v vs Hv Hvs]; [simpl; lia|].
    cbn [need write map].
    change (String.length (String "[" ?s)) with (S (String.length s)).
    rewrite length_break.
    pose proof (length_more_elements n k vs Hvs).
    unfold list_sum in *. cbn [fold_right].
    specialize (Hv (S n) (more_elements (write (S n)) n k vs)). lia.
  - destruct Hms as [|[p v] ms Hv Hms]; [simpl; lia|].
    cbn [need write map snd].
    change (String.length (String "{" ?s)) with (S (String.length s)).
    rewrite length_break.
    pose proof (length_more_members n k ms Hms).
    unfold list_sum in *. cbn [fold_right].
    pose proof (length_QuoteJSONString p (String ":" (String " "
      (write (S n) v (more_members (write (S n)) n k ms))))) as Hq.
    specialize (Hv (S n) (more_members (write (S n)) n k ms)).
    cbn [snd] in Hv.
    change (String.length (String ":" (String " " ?s)))
      with (S (S (String.length s))) in Hq. lia.
Qed.

(** [JSON.parse(JSON.stringify(v, null, 2))] is [v]. *)
Theorem parse_stringify (j : json) :
  parse (stringify j) = Ok (Some j) EmptyString.
Proof.
  unfold parse, stringify.
  rewrite read_value_write; [reflexivity|].
  pose proof (need_le_length j 0 EmptyString) as H. simpl in H. lia.
Qed.

(** *** The budget of [parse] is never used up *)

Lemma length_skip_ws (s : string) :
  String.length (skip_ws s) <= String.length s.
Proof.
  induction s as [|c r IH]; simpl; [lia|].
  destruct (is_ws c); simpl; lia.
Qed.

Lemma next_is_shorter (c : ascii) (s rest : string) :
  next_is c s = Some rest -> String.length rest < String.length s.
Proof.
  unfold next_is. pose proof (length_skip_ws s) as Hs.
  destruct (skip_ws s) as [|c' r]; [discriminate|].
  destruct (Ascii.eqb c' c); [|discriminate].
  intros [= ->]. simpl in Hs. lia.
Qed.

Lemma map_parsed_ok {A B : Type} (f : A -> B) (p : parsed A) (b : B)
  (rest : string) :
  map_parsed f p = Ok b rest -> exists a, p = Ok a rest.
Proof. destruct p; simpl; intros [=]; subst; eauto. Qed.

Lemma map_parsed_fuel {A B : Type} (f : A -> B) (p : parsed A) :
  map_parsed f p = OutOfFuel -> p = OutOfFuel.
Proof. destruct p; simpl; intros [=]; reflexivity. Qed.

Lemma read_units_shorter (n : nat) :
  forall s p rest,
    String.length s <= n ->
    read_units s = Ok p rest -> String.length rest < String.length s.
Proof.
  induction n as [|n IH]; intros s p rest Hn H.
  - destruct s; [discriminate|simpl in Hn; lia].
  - destruct s as [|c r]; [discriminate|]. simpl in Hn.
    cbn [read_units] in H. unfold push_unit in H.
    destruct (Ascii.eqb c dquote); [injection H as <- <-; simpl; lia|].
    destruct (Ascii.eqb c backslash).
    + destruct r as [|e r']; [discriminate|]. simpl in Hn.
      destruct (Ascii.eqb e "u").
      * split_ifs; try discriminate;
          try (apply map_parsed_ok in H as [a H];
               apply IH in H; [simpl; lia|lia]).
        destruct r' as [|h1 [|h2 [|h3 [|h4 r'']]]]; try discriminate.
        simpl in Hn.
        destruct (hex4 h1 h2 h3 h4); [|discriminate].
        destruct (_ <? _)%N; apply map_parsed_ok in H as [a H];
          apply IH in H; simpl; lia.
      * split_ifs; try discriminate;
          apply map_parsed_ok in H as [a H];
          apply IH in H; simpl; lia.
    + destruct (_ <? _)%N; [discriminate|].
      apply map_parsed_ok in H as [a H]. apply IH in H; simpl; lia.
Qed.

Lemma read_units_fuel (s : string) : read_units s <> OutOfFuel.
Proof.
  remember (String.length s) as n eqn:Hn.
  assert (Hle : String.length s <= n) by lia. clear Hn.
  revert s Hle. induction n as [|n IH]; intros s Hle H.
  - destruct s; [discriminate|simpl in Hle; lia].
  - destruct s as [|c r]; [discriminate|]. simpl in Hle.
    cbn [read_units] in H. unfold push_unit in H.
    destruct (Ascii.eqb c dquote); [discriminate|].
    destruct (Ascii.eqb c backslash).
    + destruct r as [|e r']; [discriminate|]. simpl in Hle.
      destruct (Ascii.eqb e "u").
      * split_ifs; try discriminate;
          try (apply map_parsed_fuel in H; apply IH in H; [exact H|lia]).
        destruct r' as [|h1 [|h2 [|h3 [|h4 r'']]]]; try discriminate.
        simpl in Hle.
        destruct (hex4 h1 h2 h3 h4); [|discriminate].
        destruct (_ <? _)%N; apply map_parsed_fuel in H;
          apply IH in H; try exact H; lia.
      * split_ifs; try discriminate;
          apply map_parsed_fuel in H; apply IH in H; try exact H; lia.
    + destruct (_ <? _)%N; [discriminate|].
      apply map_parsed_fuel in H. apply IH in H; [exact H|lia].
Qed.

Lemma strip_shorter (word s rest : string) :
  strip word s = Some rest -> String.length rest <= String.length s.
Proof.
  revert s. induction word as [|a w IH]; intros s; simpl.
  - intros [= ->]. lia.
  - destruct s as [|b r]; [discriminate|].
    destruct (Ascii.eqb a b); [|discriminate].
    intros H. apply IH in H. simpl. lia.
Qed.

Lemma length_skip_digits (s : string) :
  String.length (skip_digits s) <= String.length s.
Proof.
  induction s as [|c r IH]; simpl; [lia|].
  destruct (is_digit c); simpl; lia.
Qed.

Lemma some_digits_shorter (s rest : string) :
  some_digits s = Some rest -> String.length rest < String.length s.
Proof.
  destruct s as [|c r]; simpl; [discriminate|].
  destruct (is_digit c); [|discriminate].
  intros [= <-]. pose proof (length_skip_digits r). lia.
Qed.

Lemma after_fraction_shorter (s rest : string) :
  after_fraction s = Some rest -> String.length rest <= String.length s.
Proof.
  destruct s as [|c r]; simpl; [intros [= <-]; simpl; lia|].
  destruct (_ || _); [|intros [= <-]; simpl; lia].
  destruct r as [|g r']; [discriminate|].
  destruct (_ || _); intros H; apply some_digits_shorter in H;
    simpl in *; lia.
Qed.

Lemma after_integer_shorter (s rest : string) :
  after_integer s = Some rest -> String.length rest <= String.length s.
Proof.
  destruct s as [|c r]; [intros [= <-]; simpl; lia|].
  unfold after_integer.
  destruct (Ascii.eqb c ".").
  - destruct (some_digits r) as [r'|] eqn:Hd; [|discriminate].
    intros H. apply after_fraction_shorter in H.
    apply some_digits_shorter in Hd. simpl. lia.
  - apply after_fraction_shorter.
Qed.

Lemma read_number_shorter (s rest : string) :
  read_number s = Some rest -> String.length rest < String.length s.
Proof.
  unfold read_number.
  assert (Hgen : forall t,
    match t with
    | String c r =>
        if Ascii.eqb c "0" then after_integer r
        else if is_digit c then after_integer (skip_digits r) else None
    | EmptyString => None
    end = Some rest -> String.length rest < String.length t).
  { intros [|c r]; [discriminate|].
    destruct (Ascii.eqb c "0").
    - intros H. apply after_integer_shorter in H. simpl. lia.
    - destruct (is_digit c); [|discriminate].
      intros H. apply after_integer_shorter in H.
      pose proof (length_skip_digits r). simpl. lia. }
  destruct s as [|c r]; [discriminate|].
  destruct (Ascii.eqb c "-"); intros H.
  - apply (Hgen r) in H. simpl. lia.
  - apply (Hgen (String c r)) in H. exact H.
Qed.

(** Every reader consumes some of its text. *)
Lemma readers_shorter (f : nat) :
  (forall s v rest, read_value f s = Ok v rest ->
     String.length rest < String.length s)
  /\ (forall s v rest, read_elements f s = Ok v rest ->
        String.length rest < String.length s)
  /\ (forall s v rest, read_members f s = Ok v rest ->
        String.length rest < String.length s).
Proof.
  induction f as [|f (IHv & IHe & IHm)];
    [repeat split; intros s v rest H; discriminate|].
  repeat split; intros s v rest H.
  - cbn [read_value] in H. pose proof (length_skip_ws s) as Hs.
    destruct (skip_ws s) as [|c r]; [discriminate|]. simpl in Hs.
    unfold expect in H.
    destruct (Ascii.eqb c "n");
      [destruct (strip _ r) eqn:Hw; [|discriminate]; injection H as <- <-;
       apply strip_shorter in Hw; lia|].
    destruct (Ascii.eqb c "t");
      [destruct (strip _ r) eqn:Hw; [|discriminate]; injection H as <- <-;
       apply strip_shorter in Hw; lia|].
    destruct (Ascii.eqb c "f");
      [destruct (strip _ r) eqn:Hw; [|discriminate]; injection H as <- <-;
       apply strip_shorter in Hw; lia|].
    destruct (Ascii.eqb c dquote).
    { apply map_parsed_ok in H as [a H].
      apply (read_units_shorter _ _ _ _ (le_n _)) in H. lia. }
    destruct (Ascii.eqb c "[").
    { destruct (next_is "]" r) as [r'|] eqn:Hn.
      - injection H as <- <-. apply next_is_shorter in Hn. lia.
      - apply map_parsed_ok in H as [a H]. apply IHe in H. lia. }
    destruct (Ascii.eqb c "{").
    { destruct (next_is "}" r) as [r'|] eqn:Hn.
      - injection H as <- <-. apply next_is_shorter in Hn. lia.
      - apply map_parsed_ok in H as [a H]. apply IHm in H. lia. }
    destruct (read_number (String c r)) as [r'|] eqn:Hn; [|discriminate].
    injection H as <- <-. apply read_number_shorter in Hn. simpl in Hn. lia.
  - cbn [read_elements] in H.
    destruct (read_value f s) as [v1 r1| |] eqn:Hv; try discriminate.
    apply IHv in Hv.
    destruct (next_is "]" r1) as [r2|] eqn:Hc.
    { injection H as <- <-. apply next_is_shorter in Hc. lia. }
    destruct (next_is "," r1) as [r2|] eqn:Hk; [|discriminate].
    apply map_parsed_ok in H as [a H]. apply IHe in H.
    apply next_is_shorter in Hk. lia.
  - cbn [read_members] in H.
    destruct (next_is dquote s) as [r|] eqn:Hq; [|discriminate].
    apply next_is_shorter in Hq.
    destruct (read_units r) as [p r1| |] eqn:Hu; try discriminate.
    apply (read_units_shorter _ _ _ _ (le_n _)) in Hu.
    destruct (next_is ":" r1) as [r2|] eqn:Hc; [|discriminate].
    apply next_is_shorter in Hc.
    destruct (read_value f r2) as [v1 r3| |] eqn:Hv; try discriminate.
    apply IHv in Hv.
    destruct (next_is "}" r3) as [r4|] eqn:Hb.
    { injection H as <- <-. apply next_is_shorter in Hb. lia. }
    destruct (next_is "," r3) as [r4|] eqn:Hk; [|discriminate].
    apply map_parsed_ok in H as [a H]. apply IHm in H.
    apply next_is_shorter in Hk. lia.
Qed.

(** Two calls per character are enough. *)
Lemma readers_fuel (f : nat) :
  (forall s, 2 * String.length s + 1 <= f -> read_value f s <> OutOfFuel)
  /\ (forall s, 2 * String.length s + 2 <= f ->
        read_elements f s <> OutOfFuel)
  /\ (forall s, 2 * String.length s + 2 <= f ->
        read_members f s <> OutOfFuel).
Proof.
  induction f as [|f (IHv & IHe & IHm)];
    [repeat split; intros s Hf; lia|].
  destruct (readers_shorter f) as (Sv & Se & Sm).
  repeat split; intros s Hf H.
  - cbn [read_value] in H. pose proof (length_skip_ws s) as Hs.
    destruct (skip_ws s) as [|c r]; [discriminate|]. simpl in Hs.
    unfold expect in H.
    destruct (Ascii.eqb c "n"); [destruct (strip _ r); discriminate|].
    destruct (Ascii.eqb c "t"); [destruct (strip _ r); discriminate|].
    destruct (Ascii.eqb c "f"); [destruct (strip _ r); discriminate|].
    destruct (Ascii.eqb c dquote).
    { apply map_parsed_fuel in H. exact (read_units_fuel _ H). }
    destruct (Ascii.eqb c "[").
    { destruct (next_is "]" r); [discriminate|].
      apply map_parsed_fuel in H. apply IHe in H; [exact H|lia]. }
    destruct (Ascii.eqb c "{").
    { destruct (next_is "}" r); [discriminate|].
      apply map_parsed_fuel in H. apply IHm in H; [exact H|lia]. }
    destruct (read_number (String c r)); discriminate.
  - cbn [read_elements] in H.
    destruct (read_value f s) as [v1 r1| |] eqn:Hv; try discriminate.
    + apply Sv in Hv.
      destruct (next_is "]" r1); [discriminate|].
      destruct (next_is "," r1) as [r2|] eqn:Hk; [|discriminate].
      apply next_is_shorter in Hk.
      apply map_parsed_fuel in H. apply IHe in H; [exact H|lia].
    + apply IHv in Hv; [exact Hv|lia].
  - cbn [read_members] in H.
    destruct (next_is dquote s) as [r|] eqn:Hq; [|discriminate].
    apply next_is_shorter in Hq.
    destruct (read_units r) as [p r1| |] eqn:Hu; try discriminate.
    + apply (read_units_shorter _ _ _ _ (le_n _)) in Hu.
      destruct (next_is ":" r1) as [r2|] eqn:Hc; [|discriminate].
      apply next_is_shorter in Hc.
      destruct (read_value f r2) as [v1 r3| |] eqn:Hv; try discriminate.
      * apply Sv in Hv.
        destruct (next_is "}" r3); [discriminate|].
        destruct (next_is "," r3) as [r4|] eqn:Hk; [|discriminate].
        apply next_is_shorter in Hk.
        apply map_parsed_fuel in H. apply IHm in H; [exact H|lia].
      * apply IHv in Hv; [exact Hv|lia].
    + exact (read_units_fuel _ Hu).
Qed.

(** [parse] answers on every text: a value or a syntax error. *)
Theorem parse_total (text : string) : parse text <> OutOfFuel.
Proof.
  unfold parse. intros H.
  destruct (read_value (S (2 * String.length text)) text) as [j rest| |]
    eqn:Hr.
  - destruct (skip_ws rest); discriminate.
  - discriminate.
  - apply (proj1 (readers_fuel (S (2 * String.length text)))) in Hr;
      [exact Hr|lia].
Qed.

End JsonFacts.

(** ** Persistence *)

Lemma read_record_json (a : Artwork) :
  match record_json a with
  | Json.JObject ms => read_record ms no_properties
  | _ => None
  end = Some a.
Proof.
  destruct a as [[t|] [d|] [x|] [| |f] [l|]]; reflexivity.
Qed.

Lemma slot_of_slot_json (s : slot) :
  slot_of_json (slot_json s) = Some (reloaded s).
Proof.
  destruct s as [| |a]; try reflexivity.
  simpl. pose proof (read_record_json a) as H.
  unfold record_json in *. rewrite H. reflexivity.
Qed.

Lemma of_json_to_json (arts : list slot) :
  of_json (to_json arts) = Some (map reloaded arts).
Proof.
  unfold of_json, to_json.
  induction arts as [|s arts IH]; simpl; [reflexivity|].
  rewrite slot_of_slot_json, IH. reflexivity.
Qed.

(** Loading what was saved: every position as it was, the holes apart. *)
Lemma load_stringify (arts : list slot) :
  load (Some (JSON_stringify arts)) = Loaded (map reloaded arts).
Proof.
  unfold load, JSON_stringify.
  rewrite JsonFacts.parse_stringify, of_json_to_json. reflexivity.
Qed.

Lemma reloaded_collection (arts : list slot) :
  collection arts -> map reloaded arts = arts.
Proof.
  induction 1 as [|s arts [a ->] _ IH]; simpl; [reflexivity|].
  rewrite IH. reflexivity.
Qed.

(** C5. Saving a collection and loading the document afresh gives the
    sequence that was saved, record for record and field for field. *)
Theorem save_then_load (w : world) :
  collection (artworks w) ->
  exists w',
    saveArtwork w = Returns tt w'
    /\ artworks w' = artworks w
    /\ data_json w' = Some (JSON_stringify (artworks w))
    /\ load (data_json w') = Loaded (artworks w).
Proof.
  intros Hc. eexists. split; [reflexivity|].
  cbn [artworks data_json].
  split; [reflexivity|]. split; [reflexivity|].
  rewrite load_stringify, (reloaded_collection _ Hc). reflexivity.
Qed.

Lemma save_then_load_witness :
  exists w',
    saveArtwork gallery = Returns tt w'
    /\ artworks w' = artworks gallery
    /\ data_json w' = Some (JSON_stringify (artworks gallery))
    /\ load (data_json w') = Loaded (artworks gallery).
Proof.
  apply (save_then_load gallery).
  repeat (constructor; [eexists; reflexivity|]). constructor.
Defined.

(** C8. When [data.json] does not exist, or holds text that [JSON.parse]
    rejects, the process starts on the empty array. *)
Theorem load_missing_or_malformed (file : option string) :
  file = None
  \/ (exists text, file = Some text /\ Json.parse text = Json.SyntaxError) ->
  load file = Loaded nil.
Proof.
  intros [->|(text & -> & Hbad)]; simpl; [reflexivity|].
  rewrite Hbad. reflexivity.
Qed.

Lemma load_missing_or_malformed_witness :
  load None = Loaded nil /\ load (Some "[{ title: Irises") = Loaded nil.
Proof.
  split.
  - apply (load_missing_or_malformed None). left. reflexivity.
  - apply (load_missing_or_malformed (Some "[{ title: Irises")).
    right. eexists. split; [reflexivity|]. vm_compute. reflexivity.
Defined.

(** The mutating handlers keep a collection a collection (every position
    a record), the update when its index is valid: the collections of C5
    are the arrays that requests at valid indices build. *)
Lemma handlers_keep_collection (w w' : world) (r : response) :
  collection (artworks w) ->
  (forall t d x file,
     post_addArtwork t d x file w = Returns r w' ->
     collection (artworks w'))
  /\ (forall id t d x,
       valid_index (artworks w) id ->
       post_updateArtwork id t d x w = Returns r w' ->
       collection (artworks w'))
  /\ (forall id,
       post_deleteArtwork id w = Returns r w' -> collection (artworks w'))
  /\ (forall id,
       post_toggleLike id w = Returns r w' -> collection (artworks w')).
Proof.
  unfold collection. intros Hc. repeat split.
  - intros t d x file H.
    destruct (store_upload_frame file w) as (wu & Hup & Ha & _ & _).
    unfold post_addArtwork, bind in H. rewrite Hup in H.
    destruct (truthy t && truthy d && truthy x).
    + simpl in H. injection H as _ <-. simpl. rewrite Ha.
      apply Forall_app. split; [exact Hc|]. repeat constructor. eauto.
    + injection H as _ <-. rewrite Ha. exact Hc.
  - intros id t d x (i & Hi & Hlt) H.
    unfold post_updateArtwork, bind, read_artworks in H.
    rewrite (classify_index _ _ Hi) in H. simpl in H.
    injection H as _ <-. simpl. rewrite (assign_in_range _ _ _ Hlt).
    apply Forall_insert; [exact Hc|eauto].
  - intros id H.
    unfold post_deleteArtwork, bind, read_artworks in H.
    destruct (classify id) as [i| |]; try discriminate.
    destruct (element (artworks w) i) as [| |a]; try discriminate.
    assert (Hdel : Forall (fun s => exists a, s = Obj a)
                     (delete i (artworks w))).
    { apply Forall_delete, Hc. }
    destruct (image a) as [| |[|c n]]; simpl in H;
      try (injection H as _ <-; exact Hdel).
    unfold unlink_if_exists in H.
    destruct (decide _); [|destruct (plain_name _); [|discriminate]];
      simpl in H; injection H as _ <-; exact Hdel.
  - intros id H.
    unfold post_toggleLike, bind, read_artworks in H.
    destruct (index_of_number (parseInt id)) as [i|];
      [|injection H as _ <-; exact Hc].
    destruct (element (artworks w) i) as [| |a];
      [injection H as _ <-; exact Hc..|].
    simpl in H. injection H as _ <-. simpl.
    apply Forall_insert; [exact Hc|eauto].
Qed.

(** A mutating handler that answers has either saved the array it leaves
    or left both the array and [data.json] as they were. *)
Lemma step_saves_or_keeps (w w' : world) :
  step w w' ->
  data_json w' = Some (JSON_stringify (artworks w'))
  \/ (artworks w' = artworks w /\ data_json w' = data_json w).
Proof.
  intros [t d x file r w0 w1 H|id t d x r w0 w1 H|id r w0 w1 H
         |id r w0 w1 H].
  - destruct (store_upload_frame file w0) as (wu & Hup & Ha & Hd & _).
    unfold post_addArtwork, bind in H. rewrite Hup in H.
    destruct (truthy t && truthy d && truthy x).
    + simpl in H. injection H as _ <-. left. reflexivity.
    + injection H as _ <-. right. auto.
  - unfold post_updateArtwork, bind, read_artworks in H.
    destruct (classify id); try discriminate.
    simpl in H. injection H as _ <-. left. reflexivity.
  - unfold post_deleteArtwork, bind, read_artworks in H.
    destruct (classify id) as [i| |]; try discriminate.
    destruct (element (artworks w0) i) as [| |a]; try discriminate.
    destruct (image a) as [| |[|c n]]; simpl in H;
      try (injection H as _ <-; left; reflexivity).
    unfold unlink_if_exists in H.
    destruct (decide _); [|destruct (plain_name _); [|discriminate]];
      simpl in H; injection H as _ <-; left; reflexivity.
  - unfold post_toggleLike, bind, read_artworks in H.
    destruct (index_of_number (parseInt id)) as [i|];
      [|injection H as _ <-; right; auto].
    destruct (element (artworks w0) i) as [| |a];
      [injection H as _ <-; right; auto..|].
    simpl in H. injection H as _ <-. left. reflexivity.
Qed.

(** X5. In every state that the process can reach from an empty
    catalogue, [data.json] reloads to the array in memory (a hole as
    [null]): every mutation is saved before the handler answers. *)
Theorem persisted_in_sync (w : world) :
  reachable w -> load (data_json w) = Loaded (map reloaded (artworks w)).
Proof.
  unfold reachable. revert w.
  apply (rtc_ind_r (fun w => load (data_json w)
                             = Loaded (map reloaded (artworks w))));
    [reflexivity|].
  intros w1 w2 _ Hstep IH.
  destruct (step_saves_or_keeps _ _ Hstep) as [Hsaved|[Ha Hd]].
  - rewrite Hsaved. apply load_stringify.
  - rewrite Hd, Ha. exact IH.
Qed.

Lemma creates_run (subs : list submission) (w w' : world) :
  creates subs w = Returns tt w' -> rtc step w w'.
Proof.
  revert w. induction subs as [|s rest IH]; intros w H.
  - injection H as <-. apply rtc_refl.
  - cbn [creates] in H. unfold bind at 1 in H.
    destruct (post_addArtwork (sub_title s) (sub_date s)
                (sub_description s) (sub_file s) w) as [r w1| |] eqn:Hadd;
      try discriminate.
    eapply rtc_l; [eapply step_create, Hadd|apply IH, H].
Qed.

Lemma persisted_in_sync_witness :
  load (data_json atelier) = Loaded (map reloaded (artworks atelier)).
Proof.
  apply (persisted_in_sync atelier).
  apply (creates_run three_submissions). vm_compute. reflexivity.
Defined.

(** ** The pages *)

Lemma includes_cons_false (c : ascii) (s p : string) :
  includes (String c s) p = false ->
  startsWith (String c s) p = false /\ includes s p = false.
Proof. cbn [includes]. apply orb_false_iff. Qed.

Lemma includes_startsWith (s p : string) :
  includes s p = false -> startsWith s p = false.
Proof.
  destruct s as [|c s]; cbn [includes]; intros H;
    apply orb_false_iff in H; tauto.
Qed.

(** *** The first occurrence *)

Lemma first_occurrence_unfold (s p : string) :
  first_occurrence s p
  = if startsWith s p then Some (EmptyString, skip (String.length p) s)
    else
      match s with
      | EmptyString => None
      | String c r =>
          match first_occurrence r p with
          | Some (preceding, following) =>
              Some (String c preceding, following)
          | None => None
          end
      end.
Proof. destruct s; reflexivity. Qed.

Lemma startsWith_skip (s p : string) :
  startsWith s p = true -> s = p ++ skip (String.length p) s.
Proof.
  intros H. apply startsWith_spec in H as [x ->].
  rewrite skip_app. reflexivity.
Qed.

(** Where it cuts, the text is the part before, the pattern and the part
    after. *)
Lemma first_occurrence_cuts (s p pre post : string) :
  first_occurrence s p = Some (pre, post) -> s = pre ++ p ++ post.
Proof.
  revert pre. induction s as [|c s IH]; intros pre;
    rewrite first_occurrence_unfold;
    destruct (startsWith _ p) eqn:Hs;
    try (intros [= <- <-]; apply startsWith_skip, Hs).
  destruct (first_occurrence s p) as [[a b]|]; [|discriminate].
  intros [= <- <-]. rewrite string_app_cons. f_equal. apply IH. reflexivity.
Qed.

Lemma first_occurrence_absent (s p : string) :
  includes s p = false -> first_occurrence s p = None.
Proof.
  induction s as [|c s IH]; intros H; rewrite first_occurrence_unfold;
    rewrite (includes_startsWith _ _ H); [reflexivity|].
  apply includes_cons_false in H as [_ H]. rewrite (IH H). reflexivity.
Qed.

(** A pattern that does not overlap itself does not start inside a text
    that does not hold it, even when the pattern follows. *)
Lemma startsWith_before (x p post : string) :
  unbordered p = true ->
  x <> EmptyString ->
  startsWith x p = false ->
  startsWith (x ++ p ++ post) p = false.
Proof.
  intros Hu Hx Hno.
  destruct (startsWith (x ++ p ++ post) p) eqn:Hs; [|reflexivity].
  apply startsWith_spec in Hs as [rest Hs]. symmetry in Hs.
  destruct (le_lt_dec (String.length p) (String.length x)) as [Hle|Hlt].
  - destruct (string_app_prefix _ _ _ _ Hs Hle) as (e & He & _).
    assert (startsWith x p = true) by (apply startsWith_spec; eauto).
    congruence.
  - symmetry in Hs.
    destruct (string_app_prefix x (p ++ post) p rest Hs) as (r & Hp & Hr);
      [lia|].
    assert (Hlen : String.length p = String.length x + String.length r).
    { rewrite Hp at 1. apply string_app_length. }
    assert (Hxlen : 0 < String.length x) by (destruct x; simpl; [congruence|lia]).
    symmetry in Hr.
    destruct (string_app_prefix r rest p post Hr) as (e & He & _); [lia|].
    unfold unbordered in Hu. rewrite forallb_forall in Hu.
    specialize (Hu (String.length x)).
    assert (Hskip : skip (String.length x) p = r).
    { rewrite Hp at 1. apply skip_app. }
    rewrite Hskip in Hu.
    assert (Hpre : startsWith p r = true) by (apply startsWith_spec; eauto).
    rewrite Hpre in Hu. discriminate Hu.
    apply in_seq. lia.
Qed.

Lemma first_occurrence_at (pre p post : string) :
  unbordered p = true ->
  includes pre p = false ->
  first_occurrence (pre ++ p ++ post) p = Some (pre, post).
Proof.
  intros Hu. induction pre as [|c pre IH]; intros Hno;
    rewrite first_occurrence_unfold.
  - assert (Hs : startsWith (EmptyString ++ p ++ post) p = true)
      by (apply startsWith_spec; eauto).
    rewrite Hs, string_app_nil_l, skip_app. reflexivity.
  - rewrite startsWith_before;
      [|exact Hu|discriminate|apply includes_startsWith, Hno].
    apply includes_cons_false in Hno as [_ Hno].
    rewrite string_app_cons, (IH Hno). reflexivity.
Qed.

(** *** The replacement text *)

Lemma dollar_free_cons (c : ascii) (s : string) :
  dollar_free (String c s) -> Ascii.eqb c "$" = false /\ dollar_free s.
Proof.
  unfold dollar_free. cbn [includes startsWith]. intros H.
  apply orb_false_iff in H as [H1 H2]. rewrite andb_true_r in H1. auto.
Qed.

Lemma dollar_free_app (a b : string) :
  dollar_free a -> dollar_free b -> dollar_free (a ++ b).
Proof.
  intros Ha Hb. induction a as [|c a IH]; [exact Hb|].
  apply dollar_free_cons in Ha as [Hc Ha].
  unfold dollar_free in *. rewrite string_app_cons.
  cbn [includes startsWith]. rewrite Hc, (IH Ha). reflexivity.
Qed.

(** A text without a dollar sign is inserted as it is. *)
Lemma GetSubstitution_literal (matched preceding following r : string) :
  dollar_free r -> GetSubstitution matched preceding following r = r.
Proof.
  induction r as [|c r IH]; intros H; [reflexivity|].
  apply dollar_free_cons in H as [Hc H].
  cbn [GetSubstitution]. rewrite Hc, (IH H). reflexivity.
Qed.

Lemma replace_at (pre p post r : string) :
  unbordered p = true ->
  includes pre p = false ->
  dollar_free r ->
  replace (pre ++ p ++ post) p r = pre ++ r ++ post.
Proof.
  intros Hu Hno Hr. unfold replace.
  rewrite (first_occurrence_at _ _ _ Hu Hno), (GetSubstitution_literal _ _ _ _ Hr).
  reflexivity.
Qed.

Lemma replace_absent (s p r : string) :
  includes s p = false -> replace s p r = s.
Proof.
  intros H. unfold replace. rewrite (first_occurrence_absent _ _ H).
  reflexivity.
Qed.

(** *** Digits hold no dollar sign *)

Lemma digits_only_uint (d : Decimal.uint) :
  digits_only (NilEmpty.string_of_uint d) = true.
Proof.
  induction d as [|d IH|d IH|d IH|d IH|d IH|d IH|d IH|d IH|d IH|d IH];
    [reflexivity|..]; exact IH.
Qed.

Lemma digits_only_decimal (n : N) : digits_only (decimal n) = true.
Proof.
  unfold decimal. destruct (N.to_uint n) as [|d|d|d|d|d|d|d|d|d|d];
    [reflexivity|..];
    first [apply (digits_only_uint (Decimal.D0 d))
          |apply (digits_only_uint (Decimal.D1 d))
          |apply (digits_only_uint (Decimal.D2 d))
          |apply (digits_only_uint (Decimal.D3 d))
          |apply (digits_only_uint (Decimal.D4 d))
          |apply (digits_only_uint (Decimal.D5 d))
          |apply (digits_only_uint (Decimal.D6 d))
          |apply (digits_only_uint (Decimal.D7 d))
          |apply (digits_only_uint (Decimal.D8 d))
          |apply (digits_only_uint (Decimal.D9 d))].
Qed.

Lemma decimal_digit_no_dollar (c : ascii) :
  decimal_digit c = true -> Ascii.eqb c "$" = false.
Proof.
  intros H. destruct (Ascii.eqb c "$") eqn:Hc; [|reflexivity].
  apply Ascii.eqb_eq in Hc. subst c. discriminate H.
Qed.

Lemma digits_only_dollar_free (s : string) :
  digits_only s = true -> dollar_free s.
Proof.
  unfold dollar_free. induction s as [|c s IH]; [reflexivity|].
  cbn [digits_only includes startsWith]. intros H.
  apply andb_true_iff in H as [Hc Hs].
  rewrite (decimal_digit_no_dollar _ Hc), (IH Hs). reflexivity.
Qed.

(** The canonical string of an array index is its decimal writing. *)
Lemma array_index_canonical (id : string) (i : nat) :
  array_index id = Some i -> id = index_string i.
Proof.
  unfold array_index, index_string.
  destruct (digits 10 id None) as [n|]; [|discriminate].
  destruct ((n <? 4294967295)%N); [|discriminate].
  destruct (String.eqb _ id) eqn:Hc; [|discriminate].
  intros [= <-]. apply String.eqb_eq in Hc. rewrite N2Nat.id. auto.
Qed.

Lemma index_string_dollar_free (i : nat) : dollar_free (index_string i).
Proof. apply digits_only_dollar_free, (digits_only_decimal (N.of_nat i)). Qed.

(** *** The edit form *)

Lemma replace_in (s pre p post r : string) :
  s = pre ++ p ++ post ->
  unbordered p = true ->
  includes pre p = false ->
  dollar_free r ->
  replace s p r = pre ++ r ++ post.
Proof. intros ->. apply replace_at. Qed.

(** X6. The edit form shows the record in the places of the template.
    For a template that holds the four placeholders in the order id,
    title, date, description, each for the first time where it is meant
    (no earlier occurrence once the values before it are filled in), and a
    record whose three texts hold no dollar sign, the page is the
    template with the index, the title, the date and the description in
    place of the placeholders; a property that is [undefined] shows as
    that word. *)
Theorem update_page_fills_template (w : world) (id : string) (i : nat)
  (item : Artwork) (t0 t1 t2 t3 t4 : string) :
  array_index id = Some i ->
  artworks w !! i = Some (Obj item) ->
  let t := ToString (title item) in
  let d := ToString (date item) in
  let x := ToString (description item) in
  dollar_free t -> dollar_free d -> dollar_free x ->
  includes t0 "{{id}}" = false ->
  includes (t0 ++ id ++ t1) "{{title}}" = false ->
  includes (t0 ++ id ++ t1 ++ t ++ t2) "{{date}}" = false ->
  includes (t0 ++ id ++ t1 ++ t ++ t2 ++ d ++ t3) "{{description}}" = false ->
  update_page
    (t0 ++ "{{id}}" ++ t1 ++ "{{title}}" ++ t2 ++ "{{date}}" ++ t3
     ++ "{{description}}" ++ t4) id w
  = Returns (t0 ++ id ++ t1 ++ t ++ t2 ++ d ++ t3 ++ x ++ t4) w.
Proof.
  intros Hid Hi t d x Ht Hd Hx H0 H1 H2 H3.
  unfold update_page, bind, read_artworks.
  rewrite (classify_index _ _ Hid), (element_lookup _ _ _ Hi).
  fold t d x. unfold ret. f_equal.
  assert (Hdollar : dollar_free id).
  { rewrite (array_index_canonical _ _ Hid). apply index_string_dollar_free. }
  rewrite (replace_at t0 "{{id}}"); [|reflexivity|exact H0|exact Hdollar].
  erewrite (replace_in _ (t0 ++ id ++ t1) "{{title}}" _ t);
    [|rewrite !string_app_assoc; reflexivity|reflexivity|exact H1|exact Ht].
  erewrite (replace_in _ (t0 ++ id ++ t1 ++ t ++ t2) "{{date}}" _ d);
    [|rewrite !string_app_assoc; reflexivity|reflexivity|exact H2|exact Hd].
  erewrite (replace_in _ (t0 ++ id ++ t1 ++ t ++ t2 ++ d ++ t3)
             "{{description}}" _ x);
    [|rewrite !string_app_assoc; reflexivity|reflexivity|exact H3|exact Hx].
  rewrite !string_app_assoc. reflexivity.
Qed.

Lemma update_page_fills_template_witness :
  update_page update_html "1" gallery
  = Returns
      (html "<form method='POST' action='/updateArtwork/1'>
<input name='title' value='Sunflowers'>
<input name='date' value='1888'>
<textarea name='description'>Still life</textarea>
</form>") gallery.
Proof.
  apply (update_page_fills_template gallery "1" 1 sunflowers
           (html "<form method='POST' action='/updateArtwork/")
           (html "'>
<input name='title' value='")
           (html "'>
<input name='date' value='")
           (html "'>
<textarea name='description'>")
           (html "</textarea>
</form>"));
    reflexivity.
Defined.

(** *** What a view lists *)

(** An item of a filtered listing is a position of the array that is no
    hole, with what it spreads to, and the filter accepted it. *)
Lemma listed_lookup (p : nat * Artwork -> option bool) (arts : list slot) :
  forall k items i b,
    filter_or_throw p (with_index k arts) = Some items ->
    (i, b) ∈ items ->
    exists s,
      k <= i /\ arts !! (i - k) = Some s /\ s <> Hole /\ b = spread s
      /\ p (i, b) = Some true.
Proof.
  induction arts as [|s arts IH]; intros k items i b Hf Hin.
  - injection Hf as <-. apply elem_of_nil in Hin. destruct Hin.
  - assert (Hrest : forall items',
      filter_or_throw p (with_index (S k) arts) = Some items' ->
      (i, b) ∈ items' ->
      exists s', k <= i /\ (s :: arts) !! (i - k) = Some s' /\ s' <> Hole
                 /\ b = spread s' /\ p (i, b) = Some true).
    { intros items' Hf' Hin'.
      destruct (IH _ _ _ _ Hf' Hin') as (s' & Hk & Hl & Hs & Hb & Hp).
      exists s'. split; [lia|]. split; [|auto].
      replace (i - k) with (S (i - S k)) by lia. exact Hl. }
    assert (Hhere : forall items',
      s <> Hole ->
      match p (k, spread s) with
      | Some c =>
          match filter_or_throw p (with_index (S k) arts) with
          | Some r' => Some (if c then (k, spread s) :: r' else r')
          | None => None
          end
      | None => None
      end = Some items' ->
      (i, b) ∈ items' ->
      exists s', k <= i /\ (s :: arts) !! (i - k) = Some s' /\ s' <> Hole
                 /\ b = spread s' /\ p (i, b) = Some true).
    { intros items' Hs Hf' Hin'.
      destruct (p (k, spread s)) as [c|] eqn:Hp; [|discriminate].
      destruct (filter_or_throw p (with_index (S k) arts)) as [r'|] eqn:Hr;
        [|discriminate].
      injection Hf' as <-. destruct c; [|eauto].
      apply elem_of_cons in Hin' as [[= -> ->]|Hin']; [|eauto].
      exists s. rewrite Nat.sub_diag. auto. }
    destruct s as [| |a]; [apply (Hrest items Hf Hin)|..];
      apply (Hhere items); auto; discriminate.
Qed.

(** A position that is no hole and that the filter accepts is listed. *)
Lemma listed_complete (p : nat * Artwork -> option bool) (arts : list slot) :
  forall k items j s,
    filter_or_throw p (with_index k arts) = Some items ->
    arts !! j = Some s ->
    s <> Hole ->
    p (k + j, spread s) = Some true ->
    (k + j, spread s) ∈ items.
Proof.
  induction arts as [|s0 arts IH]; intros k items j s Hf Hj Hs Hp;
    [discriminate|].
  assert (Hlater : forall items' j',
    filter_or_throw p (with_index (S k) arts) = Some items' ->
    j = S j' -> (k + j, spread s) ∈ items').
  { intros items' j' Hf' ->. simpl in Hj.
    replace (k + S j') with (S k + j') in * by lia. eauto. }
  destruct s0 as [| |a].
  - destruct j as [|j']; [simpl in Hj; congruence|eauto].
  - cbn [with_index filter_or_throw] in Hf.
    destruct (p (k, spread Null)) as [c|] eqn:Hc; [|discriminate].
    destruct (filter_or_throw p (with_index (S k) arts)) as [r'|] eqn:Hr;
      [|discriminate].
    injection Hf as <-. destruct j as [|j'].
    + injection Hj as <-. rewrite Nat.add_0_r in *. rewrite Hp in Hc.
      injection Hc as <-. apply elem_of_cons. auto.
    + destruct c; [apply elem_of_cons; right|]; eauto.
  - cbn [with_index filter_or_throw] in Hf.
    destruct (p (k, spread (Obj a))) as [c|] eqn:Hc; [|discriminate].
    destruct (filter_or_throw p (with_index (S k) arts)) as [r'|] eqn:Hr;
      [|discriminate].
    injection Hf as <-. destruct j as [|j'].
    + injection Hj as <-. rewrite Nat.add_0_r in *. rewrite Hp in Hc.
      injection Hc as <-. apply elem_of_cons. auto.
    + destruct c; [apply elem_of_cons; right|]; eauto.
Qed.

Lemma get_home_listing (search : option string) (w w' : world)
  (view : string) (items : list (nat * Artwork)) (q : string) :
  get_home search w = Returns (Page view items q) w' ->
  filter_or_throw (home_filter (searchQuery search))
    (with_index 0 (artworks w)) = Some items
  /\ q = searchQuery search /\ w' = w.
Proof.
  unfold get_home, bind, read_artworks.
  destruct (filter_or_throw _ _) as [l|]; [|discriminate].
  intros [= _ <- <- <-]. auto.
Qed.

Lemma get_favourites_listing (search : option string) (w w' : world)
  (view : string) (items : list (nat * Artwork)) (q : string) :
  get_favourites search w = Returns (Page view items q) w' ->
  filter_or_throw (favourites_filter (searchQuery search))
    (with_index 0 (artworks w)) = Some items
  /\ q = searchQuery search /\ w' = w.
Proof.
  unfold get_favourites, bind, read_artworks.
  destruct (filter_or_throw _ _) as [l|]; [|discriminate].
  intros [= _ <- <- <-]. auto.
Qed.

(** What the home view lists is a record of the array, at its
    position. *)
Lemma home_listed (q : string) (arts : list slot)
  (items : list (nat * Artwork)) (i : nat) (a : Artwork) :
  filter_or_throw (home_filter q) (with_index 0 arts) = Some items ->
  (i, a) ∈ items ->
  arts !! i = Some (Obj a).
Proof.
  intros Hf Hin.
  destruct (listed_lookup _ _ _ _ _ _ Hf Hin) as (s & _ & Hl & Hs & Ha & Hp).
  rewrite Nat.sub_0_r in Hl. rewrite Hl.
  destruct s as [| |b]; [congruence| |simpl in Ha; congruence].
  subst a. discriminate Hp.
Qed.

(** And so is what the favourites view lists, and it is liked. *)
Lemma favourites_listed (q : string) (arts : list slot)
  (items : list (nat * Artwork)) (i : nat) (a : Artwork) :
  filter_or_throw (favourites_filter q) (with_index 0 arts) = Some items ->
  (i, a) ∈ items ->
  arts !! i = Some (Obj a) /\ liked a = Some true.
Proof.
  intros Hf Hin.
  destruct (listed_lookup _ _ _ _ _ _ Hf Hin) as (s & _ & Hl & Hs & Ha & Hp).
  rewrite Nat.sub_0_r in Hl. rewrite Hl.
  destruct s as [| |b]; [congruence|subst a; discriminate Hp|].
  simpl in Ha. subst b. split; [reflexivity|].
  unfold favourites_filter in Hp. simpl in Hp.
  destruct (liked a) as [[|]|]; [reflexivity|discriminate..].
Qed.

(** *** The cards and the pages *)

Lemma dollar_free_join (l : list string) :
  Forall dollar_free l -> dollar_free (join l).
Proof.
  induction 1 as [|s l Hs _ IH]; [reflexivity|].
  apply dollar_free_app; assumption.
Qed.

(** The markup of the cards holds no dollar sign: a card has one only
    where a property of the record has. *)
Lemma home_card_dollar_free (i : nat) (a : Artwork) :
  plain_record a -> dollar_free (home_card (i, a)).
Proof.
  intros (Ht & Hd & Hx & Him). unfold home_card. cbn [fst snd].
  apply dollar_free_join.
  repeat (apply Forall_cons; split); try apply Forall_nil;
    try assumption; try apply index_string_dollar_free; try reflexivity.
  - destruct (image a) as [| |[|c r]]; try reflexivity.
    apply dollar_free_join.
    repeat (apply Forall_cons; split); try apply Forall_nil;
      try assumption; reflexivity.
  - destruct (liked a) as [[|]|]; reflexivity.
Qed.

Lemma favourites_card_dollar_free (i : nat) (a : Artwork) :
  plain_record a -> dollar_free (favourites_card (i, a)).
Proof.
  intros (Ht & Hd & Hx & Him). unfold favourites_card. cbn [fst snd].
  apply dollar_free_join.
  repeat (apply Forall_cons; split); try apply Forall_nil;
    try assumption; try apply index_string_dollar_free; try reflexivity.
  destruct (image a) as [| |[|c r]]; try reflexivity.
  apply dollar_free_join.
  repeat (apply Forall_cons; split); try apply Forall_nil;
    try assumption; reflexivity.
Qed.

Lemma cards_dollar_free (card : nat * Artwork -> string)
  (items : list (nat * Artwork)) :
  (forall i a, (i, a) ∈ items -> dollar_free (card (i, a))) ->
  dollar_free (join (map card items)).
Proof.
  intros H. apply dollar_free_join, Forall_forall.
  intros s Hs. apply list_elem_of_fmap in Hs as ([i a] & -> & Hin). auto.
Qed.

(** The two replacements of a view, in either order of the
    placeholders. *)
Lemma replacements_fill (page : string -> M string)
  (placeholder cards q : string) (w : world) :
  (forall template,
     page template w
     = Returns (replace (replace template placeholder cards) "{{search}}" q)
         w) ->
  unbordered placeholder = true ->
  dollar_free cards ->
  dollar_free q ->
  fills page placeholder cards q w.
Proof.
  intros Hpage Hu Hcards Hq A B C. split; intros H1 H2; rewrite Hpage;
    f_equal.
  - erewrite (replace_in _ (A ++ "{{search}}" ++ B) placeholder _ cards);
      [|rewrite !string_app_assoc; reflexivity|exact Hu|exact H2
       |exact Hcards].
    erewrite (replace_in _ A "{{search}}" _ q);
      [|rewrite !string_app_assoc; reflexivity|reflexivity|exact H1
       |exact Hq].
    reflexivity.
  - rewrite (replace_at A placeholder); [|exact Hu|exact H1|exact Hcards].
    erewrite (replace_in _ (A ++ cards ++ B) "{{search}}" _ q);
      [|rewrite !string_app_assoc; reflexivity|reflexivity|exact H2
       |exact Hq].
    rewrite !string_app_assoc. reflexivity.
Qed.

(** X7. The two views fill their templates. When the query and the
    properties of the records hold no dollar sign, the home page is its
    template with the cards of the listed records, joined in the order of
    the listing, in place of the first [<!-- ARTWORK_LIST -->] and the
    query in place of the first [{{search}}], and the favourites page
    likewise with [<!-- FAVOURITES_LIST -->]. The query is put in after
    the cards: where the list comes first in the template, a
    [{{search}}] inside a card would be the first one, and the statement
    asks that there is none. *)
Theorem views_fill_their_templates (w : world) (search : option string)
  (home favourites : list (nat * Artwork)) :
  let q := searchQuery search in
  get_home search w = Returns (Page "index.html" home q) w ->
  get_favourites search w = Returns (Page "favourites.html" favourites q) w ->
  dollar_free q ->
  (forall i a, artworks w !! i = Some (Obj a) -> plain_record a) ->
  fills (fun template => home_page template search)
    "<!-- ARTWORK_LIST -->" (join (map home_card home)) q w
  /\ fills (fun template => favourites_page template search)
       "<!-- FAVOURITES_LIST -->" (join (map favourites_card favourites))
       q w.
Proof.
  intros q Hh Hf Hq Hplain.
  apply get_home_listing in Hh as (Hh & _ & _).
  apply get_favourites_listing in Hf as (Hf & _ & _).
  split; apply replacements_fill; try reflexivity; try exact Hq.
  - intros template. unfold home_page, bind, read_artworks.
    rewrite Hh. reflexivity.
  - apply cards_dollar_free. intros i a Hin.
    apply home_card_dollar_free, (Hplain i), (home_listed _ _ _ _ _ Hh Hin).
  - intros template. unfold favourites_page, bind, read_artworks.
    rewrite Hf. reflexivity.
  - apply cards_dollar_free. intros i a Hin.
    apply favourites_card_dollar_free, (Hplain i).
    apply (favourites_listed _ _ _ _ _ Hf Hin).
Qed.

Lemma views_fill_their_templates_witness :
  let home :=
    (0%nat, mkArtwork (Some "Abcdef") (Some "2001") (Some "first")
              ImageNull (Some true))
    :: (2%nat, mkArtwork (Some "ABC123") (Some "2003") (Some "third")
                 ImageNull (Some false))
    :: nil in
  home_page index_html (Some "abc") lettered
  = Returns
      (html "<form><input name='search' value='" ++ "abc"
       ++ html "'></form>
<div class='row'>" ++ join (map home_card home) ++ "</div>") lettered.
Proof.
  intros home.
  refine (proj1 (proj1 (views_fill_their_templates lettered (Some "abc")
                          home
                          ((0%nat, mkArtwork (Some "Abcdef") (Some "2001")
                                     (Some "first") ImageNull (Some true))
                           :: nil)
                          eq_refl eq_refl eq_refl _)
                   (html "<form><input name='search' value='")
                   (html "'></form>
<div class='row'>")
                   "</div>") eq_refl eq_refl).
  intros [|[|[|i]]] a [= <-]; repeat split; reflexivity.
Defined.

(** *** When the home page throws *)

Lemma home_filter_throws (q : string) (arts : list slot) :
  forall k,
    filter_or_throw (home_filter q) (with_index k arts) = None
    <-> exists s, s ∈ arts /\ has_title s = false.
Proof.
  induction arts as [|s arts IH]; intros k.
  - split; [discriminate|]. intros (s & Hs & _).
    apply elem_of_nil in Hs. destruct Hs.
  - assert (Hrest :
      (exists s', s' ∈ arts /\ has_title s' = false)
      -> exists s', s' ∈ s :: arts /\ has_title s' = false).
    { intros (s' & Hin & Hs'). exists s'. rewrite elem_of_cons. auto. }
    destruct s as [| |a].
    + cbn [with_index]. rewrite IH. split; [exact Hrest|].
      intros (s' & Hin & Hs'). apply elem_of_cons in Hin as [->|Hin];
        [discriminate|eauto].
    + split; [|reflexivity]. intros _. exists Null.
      rewrite elem_of_cons. auto.
    + cbn [with_index filter_or_throw spread].
      unfold home_filter at 1. cbn [snd matches].
      destruct (title a) as [t|] eqn:Ht; cbn [matches].
      * destruct (filter_or_throw _ (with_index (S k) arts)) as [r|] eqn:Hr.
        -- split; [discriminate|]. intros (s' & Hin & Hs').
           apply elem_of_cons in Hin as [->|Hin].
           ++ simpl in Hs'. rewrite Ht in Hs'. discriminate.
           ++ assert (Hnone : filter_or_throw (home_filter q)
                                (with_index (S k) arts) = None)
                by (apply IH; eauto).
              congruence.
        -- split; [|reflexivity]. intros _. apply Hrest, (IH (S k)), Hr.
      * split; [|reflexivity]. intros _. exists (Obj a).
        rewrite elem_of_cons. simpl. rewrite Ht. auto.
Qed.

(** X8. The home page throws exactly when some position of the array is
    [null] or a record without a title, whatever the query is and whether
    or not the other records match it; otherwise it answers, and a hole
    is passed over. *)
Theorem home_page_throws_iff (template : string) (search : option string)
  (w : world) :
  (home_page template search w = Throws TypeError w
   <-> exists s, s ∈ artworks w /\ has_title s = false)
  /\ ((exists body, home_page template search w = Returns body w)
      <-> forall s, s ∈ artworks w -> has_title s = true).
Proof.
  pose proof (home_filter_throws (searchQuery search) (artworks w) 0) as H.
  unfold home_page, bind, read_artworks.
  destruct (filter_or_throw _ _) as [items|]; split.
  - split; [discriminate|]. intros Hex. apply H in Hex. discriminate.
  - split; [|eauto]. intros _ s Hs.
    destruct (has_title s) eqn:Ht; [reflexivity|].
    assert (Hnone : Some items = None) by (apply H; eauto). discriminate.
  - split; [|reflexivity]. intros _. apply H. reflexivity.
  - split; [intros [body Hb]; discriminate|].
    intros Hall. destruct (proj1 H eq_refl) as (s & Hs & Ht).
    rewrite (Hall s Hs) in Ht. discriminate.
Qed.

(** *** From a card to the record *)

(** The decimal writing of a position of an array is the array index of
    that position; an array has at most 2^32 - 1 elements. *)
Lemma array_index_of_position (arts : list slot) (i : nat) :
  (N.of_nat (length arts) <= 4294967295)%N ->
  i < length arts ->
  array_index (index_string i) = Some i.
Proof.
  intros Hlen Hi. unfold array_index, index_string.
  rewrite (digits_of_uint _ (to_uint_nonnil _)), DecimalN.Unsigned.of_to.
  assert (Hlt : (N.of_nat i <? 4294967295)%N = true)
    by (apply N.ltb_lt; lia).
  rewrite Hlt, String.eqb_refl, Nat2N.id. reflexivity.
Qed.

Lemma includes_app_r (a b x : string) :
  includes b x = true -> includes (a ++ b) x = true.
Proof.
  intros H. apply includes_spec in H as (pre & post & ->).
  apply includes_spec. exists (a ++ pre), post.
  rewrite string_app_assoc. reflexivity.
Qed.

Lemma skip_split (n : nat) (p : string) :
  exists u, p = u ++ skip n p.
Proof.
  revert p. induction n as [|n IH]; intros p.
  - exists EmptyString. destruct p; reflexivity.
  - destruct p as [|c p]; [exists EmptyString; reflexivity|].
    destruct (IH p) as [u Hu]. exists (String c u).
    rewrite string_app_cons. cbn [skip]. rewrite <- Hu. reflexivity.
Qed.

(** A text that ends in [x1], then [mid], then a text that begins with
    [x2]: together they hold [x1 ++ mid ++ x2]. *)
Lemma includes_between (p mid s tail x1 x2 : string) :
  String.eqb (skip (String.length p - String.length x1) p) x1 = true ->
  startsWith s x2 = true ->
  includes (p ++ mid ++ s ++ tail) (x1 ++ mid ++ x2) = true.
Proof.
  intros Hp Hs. apply String.eqb_eq in Hp.
  destruct (skip_split (String.length p - String.length x1) p) as [u Hu].
  rewrite Hp in Hu. apply startsWith_spec in Hs as [v ->].
  apply includes_spec. exists u, (v ++ tail).
  rewrite Hu, !string_app_assoc. reflexivity.
Qed.

(** The three addresses of a home card and the two of a favourites card
    are written with the index of the item. *)
Lemma cards_address_the_item (i : nat) (a : Artwork) :
  addresses (home_card (i, a)) "/updateArtwork/" i
  /\ addresses (home_card (i, a)) "/toggleLike/" i
  /\ addresses (home_card (i, a)) "/deleteArtwork/" i
  /\ addresses (favourites_card (i, a)) "/updateArtwork/" i
  /\ addresses (favourites_card (i, a)) "/deleteArtwork/" i.
Proof.
  unfold addresses, home_card, favourites_card, join.
  cbn [fold_right fst snd].
  rewrite <- !(string_app_assoc (html "'") "/updateArtwork/"),
    <- !(string_app_assoc (html "'") "/toggleLike/"),
    <- !(string_app_assoc (html "'") "/deleteArtwork/").
  repeat split.
  - do 14 apply includes_app_r. apply includes_between; reflexivity.
  - do 10 apply includes_app_r. apply includes_between; reflexivity.
  - do 16 apply includes_app_r. apply includes_between; reflexivity.
  - apply includes_between; reflexivity.
  - do 2 apply includes_app_r. apply includes_between; reflexivity.
Qed.

(** X9. The addresses on a card lead to the record of the card. For
    every item that the home page or the favourites page lists, the
    cards write the decimal index of the item after [/updateArtwork/],
    [/toggleLike/] and [/deleteArtwork/], and that index is a position
    of the array that holds this very record: the edit form shows its
    properties, the toggle reads this record, and the deletion removes
    this position when the image of the record is no name or a plain
    file name. *)
Theorem listed_records_are_addressable (w : world) (search : option string)
  (items : list (nat * Artwork)) (i : nat) (a : Artwork) :
  (N.of_nat (length (artworks w)) <= 4294967295)%N ->
  get_home search w = Returns (Page "index.html" items (searchQuery search)) w
  \/ get_favourites search w
     = Returns (Page "favourites.html" items (searchQuery search)) w ->
  (i, a) ∈ items ->
  artworks w !! i = Some (Obj a)
  /\ (addresses (home_card (i, a)) "/updateArtwork/" i
      /\ addresses (home_card (i, a)) "/toggleLike/" i
      /\ addresses (home_card (i, a)) "/deleteArtwork/" i
      /\ addresses (favourites_card (i, a)) "/updateArtwork/" i
      /\ addresses (favourites_card (i, a)) "/deleteArtwork/" i)
  /\ get_updateArtwork (index_string i) w
     = Returns (Form (index_string i) (title a) (date a) (description a)) w
  /\ toggle_target (artworks w) (index_string i) = Some (i, a)
  /\ (plain_image a ->
      exists w',
        post_deleteArtwork (index_string i) w = Returns (Redirect "/") w'
        /\ artworks w' = delete i (artworks w)).
Proof.
  intros Hlen Hpage Hin.
  assert (Hi : artworks w !! i = Some (Obj a)).
  { destruct Hpage as [H|H].
    - apply get_home_listing in H as (H & _ & _).
      apply (home_listed _ _ _ _ _ H Hin).
    - apply get_favourites_listing in H as (H & _ & _).
      apply (favourites_listed _ _ _ _ _ H Hin). }
  pose proof (array_index_of_position _ _ Hlen (lookup_lt_Some _ _ _ Hi))
    as Hid.
  split; [exact Hi|]. split; [apply cards_address_the_item|].
  split; [|split].
  - unfold get_updateArtwork, bind, read_artworks.
    rewrite (classify_index _ _ Hid), (element_lookup _ _ _ Hi).
    reflexivity.
  - unfold toggle_target.
    rewrite (parseInt_array_index _ _ Hid), (element_lookup _ _ _ Hi).
    reflexivity.
  - intros Hplain.
    assert (Him : image_in_model w a).
    { unfold image_in_model, plain_image in *.
      destruct (image a); [exact I..|]. destruct Hplain; auto. }
    destruct (deleteArtwork_at_record w _ i a Hid Hi Him)
      as (w' & Hd & Ha & _).
    eauto.
Qed.

Lemma listed_records_are_addressable_witness :
  let abc123 := mkArtwork (Some "ABC123") (Some "2003") (Some "third")
                  ImageNull (Some false) in
  artworks lettered !! 2%nat = Some (Obj abc123)
  /\ (addresses (home_card (2%nat, abc123)) "/updateArtwork/" 2
      /\ addresses (home_card (2%nat, abc123)) "/toggleLike/" 2
      /\ addresses (home_card (2%nat, abc123)) "/deleteArtwork/" 2
      /\ addresses (favourites_card (2%nat, abc123)) "/updateArtwork/" 2
      /\ addresses (favourites_card (2%nat, abc123)) "/deleteArtwork/" 2)
  /\ get_updateArtwork (index_string 2) lettered
     = Returns (Form (index_string 2) (Some "ABC123") (Some "2003")
                  (Some "third")) lettered
  /\ toggle_target (artworks lettered) (index_string 2)
     = Some (2%nat, abc123)
  /\ (plain_image abc123 ->
      exists w',
        post_deleteArtwork (index_string 2) lettered
        = Returns (Redirect "/") w'
        /\ artworks w' = delete 2%nat (artworks lettered)).
Proof.
  apply (listed_records_are_addressable lettered (Some "abc")
           ((0%nat, mkArtwork (Some "Abcdef") (Some "2001") (Some "first")
                      ImageNull (Some true))
            :: (2%nat, mkArtwork (Some "ABC123") (Some "2003")
                         (Some "third") ImageNull (Some false))
            :: nil)).
  - vm_compute. discriminate.
  - left. reflexivity.
  - apply elem_of_cons. right. apply elem_of_cons. left. reflexivity.
Defined.

(** *** What is saved is what the form shows *)

Lemma lookup_assign (arts : list slot) (i : nat) (v : slot) :
  assign arts i v !! i = Some v.
Proof.
  unfold assign. destruct (decide (i < length arts)) as [Hlt|Hge].
  - apply list_lookup_insert_eq, Hlt.
  - rewrite lookup_app_r by lia.
    rewrite lookup_app_r by (rewrite length_replicate; lia).
    rewrite length_replicate, Nat.sub_diag. reflexivity.
Qed.

Lemma element_assign (arts : list slot) (i : nat) (v : slot) :
  element (assign arts i v) i = v.
Proof. apply element_lookup, lookup_assign. Qed.

Lemma length_assign (arts : list slot) (i : nat) (v : slot) :
  i < length (assign arts i v).
Proof.
  unfold assign. destruct (decide (i < length arts)) as [Hlt|Hge].
  - rewrite length_insert. exact Hlt.
  - rewrite !length_app, length_replicate. simpl. lia.
Qed.

(** X10. An update followed by the edit form: whatever the index, in
    range or past the end, the form of the same index then shows the
    three values that were sent, and sending them again leaves the array
    as it is. *)
Theorem update_then_form (w : world) (id : string) (i : nat)
  (title date description : option string) :
  array_index id = Some i ->
  exists w',
    post_updateArtwork id title date description w
    = Returns (Redirect "/") w'
    /\ get_updateArtwork id w' = Returns (Form id title date description) w'
    /\ exists w'',
         post_updateArtwork id title date description w'
         = Returns (Redirect "/") w''
         /\ artworks w'' = artworks w'.
Proof.
  intros Hid.
  unfold post_updateArtwork, get_updateArtwork, bind, read_artworks.
  rewrite (classify_index _ _ Hid).
  eexists. split; [reflexivity|]. cbn [artworks]. rewrite element_assign.
  split; [reflexivity|]. eexists. split; [reflexivity|].
  cbn [artworks spread image liked].
  rewrite assign_in_range by apply length_assign.
  apply list_insert_id, lookup_assign.
Qed.

Lemma update_then_form_witness :
  exists w',
    post_updateArtwork "5" (Some "Irises") None (Some "Garden") gallery
    = Returns (Redirect "/") w'
    /\ get_updateArtwork "5" w'
       = Returns (Form "5" (Some "Irises") None (Some "Garden")) w'
    /\ exists w'',
         post_updateArtwork "5" (Some "Irises") None (Some "Garden") w'
         = Returns (Redirect "/") w''
         /\ artworks w'' = artworks w'.
Proof.
  apply (update_then_form gallery "5" 5 (Some "Irises") None (Some "Garden")).
  reflexivity.
Defined.

(** ** Uploaded files *)

Lemma decimal_cons (n : N) :
  exists c r, decimal n = String c r.
Proof.
  unfold decimal. destruct (N.to_uint n); simpl; eauto.
Qed.

Lemma decimal_inj (n m : N) : decimal n = decimal m -> n = m.
Proof.
  unfold decimal. intros H.
  apply DecimalN.Unsigned.to_uint_inj.
  pose proof (NilZero.usu _ (to_uint_nonnil n)) as Hn.
  pose proof (NilZero.usu _ (to_uint_nonnil m)) as Hm.
  rewrite H in Hn. congruence.
Qed.

(** Digits followed by a hyphen: the hyphen ends the digits. *)
Lemma digits_then_hyphen (a b x y : string) :
  digits_only a = true ->
  digits_only b = true ->
  a ++ String "-" x = b ++ String "-" y ->
  a = b /\ x = y.
Proof.
  revert b. induction a as [|c a IH]; intros [|c' b] Ha Hb H;
    rewrite ?string_app_nil_l, ?string_app_cons in H.
  - injection H as ->. auto.
  - injection H as <- _. discriminate Hb.
  - injection H as -> _. discriminate Ha.
  - injection H as -> H. cbn [digits_only] in Ha, Hb.
    apply andb_true_iff in Ha as [_ Ha]. apply andb_true_iff in Hb as [_ Hb].
    destruct (IH b Ha Hb H) as [-> ->]. auto.
Qed.

Lemma filename_parts (now random : N) (originalname : string) :
  filename now random originalname
  = decimal now ++ String "-" (decimal random ++ String "-" originalname).
Proof.
  unfold filename. cbv zeta. rewrite !string_app_assoc. reflexivity.
Qed.

(** X11. Two uploads are stored under the same name only when the time,
    the random number and the name of the file on the client all
    coincide: the three parts can be read back from the stored name. *)
Theorem filename_injective (now random now' random' : N)
  (originalname originalname' : string) :
  filename now random originalname = filename now' random' originalname'
  <-> now = now' /\ random = random' /\ originalname = originalname'.
Proof.
  split; [|intros (-> & -> & ->); reflexivity].
  rewrite !filename_parts. intros H.
  apply digits_then_hyphen in H as [Hnow H];
    [|apply digits_only_decimal..].
  apply digits_then_hyphen in H as [Hrandom H];
    [|apply digits_only_decimal..].
  auto using decimal_inj.
Qed.

Lemma filename_cons (now random : N) (originalname : string) :
  exists c r, filename now random originalname = String c r.
Proof.
  rewrite filename_parts. destruct (decimal_cons now) as (c & r & ->).
  rewrite string_app_cons. eauto.
Qed.

(** X12. The upload is stored before the form is looked at: a
    submission that is rejected for a missing field leaves its file under
    [public/uploads], while the array and [data.json] are as before, so
    that no record names the file and no deletion will remove it. *)
Theorem rejected_upload_is_kept (w : world)
  (title date description : option string) (now random : N)
  (originalname : string) :
  missing title \/ missing date \/ missing description ->
  let name := filename now random originalname in
  exists w',
    post_addArtwork title date description (Some name) w
    = Returns (Send "All fields are required (except image).") w'
    /\ uploads w' = {[name]} ∪ uploads w
    /\ artworks w' = artworks w
    /\ data_json w' = data_json w
    /\ log w' = log w.
Proof.
  intros Hmiss name.
  assert (Hfalse : truthy title && truthy date && truthy description = false).
  { rewrite !andb_false_iff, !truthy_false_iff. tauto. }
  unfold post_addArtwork, bind, store_upload. rewrite Hfalse.
  eexists. split; [reflexivity|]. auto.
Qed.

Lemma rejected_upload_is_kept_witness :
  let name := filename 1700000000000 42 "night.png" in
  exists w',
    post_addArtwork (Some "Starry Night") None (Some "Oil on canvas")
      (Some name) gallery
    = Returns (Send "All fields are required (except image).") w'
    /\ uploads w' = {[name]} ∪ uploads gallery
    /\ artworks w' = artworks gallery
    /\ data_json w' = data_json gallery
    /\ log w' = log gallery.
Proof.
  apply (rejected_upload_is_kept gallery (Some "Starry Night") None
           (Some "Oil on canvas") 1700000000000 42 "night.png").
  right. left. left. reflexivity.
Defined.

(** X13. A creation followed by the deletion of the new record gives the
    catalogue back: the new record stands at the former length, its
    decimal writing is the index of the card, and the deletion leaves
    the array as it was before the creation, saved as such, with the
    uploaded file removed again. *)
Theorem create_then_delete (w : world)
  (title date description : option string)
  (upload : option (N * N * string)) :
  truthy title && truthy date && truthy description = true ->
  (N.of_nat (length (artworks w)) < 4294967295)%N ->
  exists w1 w2,
    post_addArtwork title date description (stored_name upload) w
    = Returns (Redirect "/") w1
    /\ post_deleteArtwork (index_string (length (artworks w))) w1
       = Returns (Redirect "/") w2
    /\ artworks w2 = artworks w
    /\ data_json w2 = Some (JSON_stringify (artworks w))
    /\ uploads w2
       = match stored_name upload with
         | Some name => uploads w ∖ {[name]}
         | None => uploads w
         end.
Proof.
  intros Hok Hlen.
  assert (Hid : array_index (index_string (length (artworks w)))
                = Some (length (artworks w))).
  { apply (array_index_of_position (artworks w ++ Hole :: nil)%list);
      rewrite length_app; simpl; lia. }
  assert (Hlook : forall r,
    (artworks w ++ Obj r :: nil)%list !! length (artworks w)
    = Some (Obj r)).
  { intros r. rewrite lookup_app_r by lia.
    rewrite Nat.sub_diag. reflexivity. }
  assert (Hdel : forall r,
    delete (length (artworks w)) (artworks w ++ Obj r :: nil)%list
    = artworks w).
  { intros r. rewrite delete_middle. apply app_nil_r. }
  unfold post_addArtwork, post_deleteArtwork, bind, read_artworks.
  rewrite Hok, (classify_index _ _ Hid).
  destruct upload as [[[now random] originalname]|];
    cbn [stored_name store_upload saveArtwork assign_artworks ret artworks
         data_json uploads log].
  - destruct (filename_cons now random originalname) as (c & n & ->).
    eexists. eexists. split; [reflexivity|]. cbn [artworks].
    rewrite (element_lookup _ _ _ (Hlook _)), Hdel. cbn [image].
    unfold unlink_if_exists. cbn [uploads artworks data_json log].
    destruct (decide _) as [Hin|Hout];
      [|destruct Hout; apply elem_of_union; left;
        apply elem_of_singleton; reflexivity].
    split; [reflexivity|]. cbn [artworks data_json uploads].
    repeat split. apply set_eq. intros y.
    rewrite !elem_of_difference, elem_of_union, elem_of_singleton.
    split; [intros [[Hy|Hy] Hn]; [contradiction|auto]|intros [Hy Hn]; auto].
  - eexists. eexists. split; [reflexivity|]. cbn [artworks].
    rewrite (element_lookup _ _ _ (Hlook _)), Hdel. cbn [image].
    split; [reflexivity|]. cbn [artworks data_json uploads]. auto.
Qed.

Lemma create_then_delete_witness :
  exists w1 w2,
    post_addArtwork (Some "Irises") (Some "1889") (Some "Garden")
      (stored_name (Some (1700000000001, 7, "irises.png")%N)) gallery
    = Returns (Redirect "/") w1
    /\ post_deleteArtwork (index_string (length (artworks gallery))) w1
       = Returns (Redirect "/") w2
    /\ artworks w2 = artworks gallery
    /\ data_json w2 = Some (JSON_stringify (artworks gallery))
    /\ uploads w2
       = match stored_name (Some (1700000000001, 7, "irises.png")%N) with
         | Some name => uploads gallery ∖ {[name]}
         | None => uploads gallery
         end.
Proof.
  apply (create_then_delete gallery (Some "Irises") (Some "1889")
           (Some "Garden") (Some (1700000000001, 7, "irises.png")%N));
    reflexivity.
Defined.

(** ** Likes and the favourites page *)

(** X14. A toggle moves the record in or out of the favourites: after
    unliking a record no favourites page lists its position, whatever the
    query, and after liking one every favourites page whose query its
    title contains lists it. *)
Theorem toggleLike_moves_favourite (w : world) (id : string) (i : nat)
  (a : Artwork) :
  toggle_target (artworks w) id = Some (i, a) ->
  let a' := mkArtwork (title a) (date a) (description a) (image a)
              (Some (not_liked (liked a))) in
  exists w',
    post_toggleLike id w = Returns (Redirect "/") w'
    /\ artworks w' !! i = Some (Obj a')
    /\ forall search items,
         get_favourites search w'
         = Returns (Page "favourites.html" items (searchQuery search)) w' ->
         (liked a = Some true -> forall b, (i, b) ∉ items)
         /\ (liked a <> Some true ->
             contains_ci (title a) (searchQuery search) ->
             (i, a') ∈ items).
Proof.
  intros Ht a'.
  destruct (toggle_target_element _ _ _ _ Ht) as [Hi He].
  assert (Hlook : artworks w !! i = Some (Obj a)).
  { unfold element in He. destruct (artworks w !! i) as [s|]; congruence. }
  pose proof (lookup_lt_Some _ _ _ Hlook) as Hlt.
  eexists. split; [apply (toggleLike_at_record w id i a Hi He)|].
  cbn [artworks]. fold a'.
  assert (Hnew : <[i:=Obj a']> (artworks w) !! i = Some (Obj a'))
    by apply list_lookup_insert_eq, Hlt.
  split; [exact Hnew|].
  intros search items Hpage.
  apply get_favourites_listing in Hpage as (Hf & _ & _).
  cbn [artworks] in Hf. split.
  - intros Hliked b Hin.
    destruct (favourites_listed _ _ _ _ _ Hf Hin) as [Hb Hl].
    rewrite Hnew in Hb. injection Hb as <-.
    unfold a' in Hl. cbn [liked] in Hl. rewrite Hliked in Hl. discriminate.
  - intros Hliked (t & pre & post & Htitle & Hin).
    apply (listed_complete _ _ 0 items i (Obj a') Hf Hnew); [discriminate|].
    unfold favourites_filter, a'. cbn [snd spread liked title].
    assert (Hnot : not_liked (liked a) = true)
      by (destruct (liked a) as [[|]|]; [congruence|reflexivity..]).
    rewrite Hnot, Htitle. cbn [matches].
    replace (includes (toLowerCase t) (toLowerCase (searchQuery search)))
      with true; [reflexivity|].
    symmetry. apply includes_spec. eauto.
Qed.

Lemma toggleLike_moves_favourite_witness :
  let a' := mkArtwork (title sunflowers) (date sunflowers)
              (description sunflowers) (image sunflowers)
              (Some (not_liked (liked sunflowers))) in
  exists w',
    post_toggleLike "1" gallery = Returns (Redirect "/") w'
    /\ artworks w' !! 1%nat = Some (Obj a')
    /\ forall search items,
         get_favourites search w'
         = Returns (Page "favourites.html" items (searchQuery search)) w' ->
         (liked sunflowers = Some true -> forall b, (1%nat, b) ∉ items)
         /\ (liked sunflowers <> Some true ->
             contains_ci (title sunflowers) (searchQuery search) ->
             (1%nat, a') ∈ items).
Proof.
  apply (toggleLike_moves_favourite gallery "1" 1 sunflowers). reflexivity.
Defined.

(** ** An update past the end and the next start *)

Lemma has_title_past_the_end (arts : list slot) (n : nat) (a : Artwork) :
  (forall s, s ∈ arts -> has_title s = true) ->
  has_title (Obj a) = true ->
  forall s, s ∈ (arts ++ replicate n Hole ++ Obj a :: nil)%list ->
    has_title s = true.
Proof.
  intros Harts Ha s Hs.
  apply elem_of_app in Hs as [Hs|Hs]; [auto|].
  apply elem_of_app in Hs as [Hs|Hs].
  - apply elem_of_replicate in Hs as [-> _]. reflexivity.
  - apply elem_of_cons in Hs as [->|Hs]; [exact Ha|].
    apply elem_of_nil in Hs. destruct Hs.
Qed.

(** X15. An update at an index past the end is answered and saved; the
    running process still shows its home page (it passes over the holes
    that the assignment left), but the saved document has [null] where
    the holes are, and in a process started on it the home page throws on
    every request. *)
Theorem update_past_the_end_breaks_the_restart (w : world) (id : string)
  (i : nat) (title date description : option string) :
  array_index id = Some i ->
  length (artworks w) < i ->
  exists w' w0,
    post_updateArtwork id title date description w
    = Returns (Redirect "/") w'
    /\ restarted w' = Some w0
    /\ artworks w0 !! length (artworks w) = Some Null
    /\ (forall template search,
          home_page template search w0 = Throws TypeError w0)
    /\ ((forall s, s ∈ artworks w -> has_title s = true) ->
        is_Some title ->
        forall template search,
          exists body, home_page template search w' = Returns body w').
Proof.
  intros Hid Hlen.
  assert (Hle : length (artworks w) <= i) by lia.
  pose proof (updateArtwork_past_the_end w id i title date description
                Hid Hle) as Hup.
  cbv zeta in Hup.
  set (arts' := (artworks w ++ replicate (i - length (artworks w)) Hole
                 ++ Obj (mkArtwork title date description ImageAbsent None)
                 :: nil)%list) in *.
  assert (Hnull : map reloaded arts' !! length (artworks w) = Some Null).
  { unfold arts'. rewrite map_app, lookup_app_r by (rewrite length_map; lia).
    rewrite length_map, Nat.sub_diag.
    destruct (i - length (artworks w)) as [|n] eqn:Hn; [lia|]. reflexivity. }
  eexists. eexists. split; [exact Hup|].
  unfold restarted. cbn [data_json uploads]. rewrite load_stringify.
  split; [reflexivity|]. cbn [artworks]. split; [exact Hnull|]. split.
  - intros template search. unfold home_page, bind, read_artworks.
    cbn [artworks].
    rewrite (proj2 (home_filter_throws (searchQuery search)
                      (map reloaded arts') 0)); [reflexivity|].
    exists Null. split; [|reflexivity].
    apply list_elem_of_lookup. eauto.
  - intros Hall [t ->] template search.
    unfold home_page, bind, read_artworks. cbn [artworks].
    destruct (filter_or_throw _ _) as [items|] eqn:Hf; [eauto|].
    apply home_filter_throws in Hf as (s & Hs & Hno).
    assert (Htrue : has_title s = true).
    { apply (has_title_past_the_end (artworks w) (i - length (artworks w))
               (mkArtwork (Some t) date description ImageAbsent None));
        [exact Hall|reflexivity|exact Hs]. }
    congruence.
Qed.

Lemma update_past_the_end_breaks_the_restart_witness :
  exists w' w0,
    post_updateArtwork "5" (Some "Irises") (Some "1889") (Some "Garden")
      gallery
    = Returns (Redirect "/") w'
    /\ restarted w' = Some w0
    /\ artworks w0 !! length (artworks gallery) = Some Null
    /\ (forall template search,
          home_page template search w0 = Throws TypeError w0)
    /\ ((forall s, s ∈ artworks gallery -> has_title s = true) ->
        is_Some (Some "Irises") ->
        forall template search,
          exists body, home_page template search w' = Returns body w').
Proof.
  apply (update_past_the_end_breaks_the_restart gallery "5" 5
           (Some "Irises") (Some "1889") (Some "Garden")).
  - reflexivity.
  - simpl. lia.
Defined.

(** ** The views change nothing *)

(** X16. The three views only read: whether they answer or throw, the
    array, [data.json], the uploaded files and the log of file system
    calls are as before the request. *)
Theorem views_change_nothing (w : world) (template : string)
  (search : option string) (id : string) :
  leaves_unchanged (home_page template search) w
  /\ leaves_unchanged (favourites_page template search) w
  /\ leaves_unchanged (update_page template id) w.
Proof.
  unfold leaves_unchanged, home_page, favourites_page, update_page, bind,
    read_artworks.
  repeat split.
  - destruct (filter_or_throw _ _); reflexivity.
  - destruct (filter_or_throw _ _); reflexivity.
  - destruct (classify id) as [i| |]; try reflexivity.
    destruct (element (artworks w) i); reflexivity.
Qed.

(** ** The index that the toggle reads *)

(** The digits of a text end where a code unit that is no digit
    begins. *)
Lemma digits_stop (s rest : string) :
  digits_only s = true ->
  match rest with
  | String c _ => decimal_digit c = false
  | EmptyString => True
  end ->
  forall acc, digits 10 (s ++ rest) acc = digits 10 s acc.
Proof.
  intros Hs Hrest. induction s as [|c s IH]; intros acc.
  - rewrite string_app_nil_l. destruct rest as [|c r]; [reflexivity|].
    cbn [digits]. unfold decimal_digit in Hrest.
    destruct (digit_value 10 c); [discriminate|reflexivity].
  - rewrite string_app_cons. cbn [digits digits_only] in *.
    apply andb_true_iff in Hs as [Hc Hs]. unfold decimal_digit in Hc.
    destruct (digit_value 10 c); [apply (IH Hs)|discriminate].
Qed.

(** [parseInt] of a text that begins with a decimal digit, and not with
    the prefix of a hexadecimal number, is the value of its digits. *)
Lemma parseInt_decimal (c : ascii) (r : string) :
  decimal_digit c = true ->
  (c = "0"%char ->
   match r with
   | String x _ => x <> "x"%char /\ x <> "X"%char
   | EmptyString => True
   end) ->
  parseInt (String c r)
  = match digits 10 (String c r) None with
    | Some n => Some (Z.of_N n)
    | None => None
    end.
Proof.
  intros Hc Hhex. unfold decimal_digit in Hc.
  destruct (digit_value 10 c) as [d|] eqn:Hd; [|discriminate].
  destruct (digit_is_no_sign c d Hd) as (Hws & Hminus & Hplus).
  unfold parseInt. cbn [trim_start]. rewrite Hws.
  assert (Hsign :
    match String c r with
    | String "-" r0 => (true, r0)
    | String "+" r0 => (false, r0)
    | _ => (false, String c r)
    end = (false, String c r)).
  { destruct c as [[] [] [] [] [] [] [] []]; try reflexivity;
      vm_compute in Hminus, Hplus; discriminate. }
  rewrite Hsign.
  assert (Hradix :
    match String c r with
    | String "0" (String "x" r0) => (16%N, r0)
    | String "0" (String "X" r0) => (16%N, r0)
    | _ => (10%N, String c r)
    end = (10%N, String c r)).
  { destruct r as [|x r']; [destruct c as [[] [] [] [] [] [] [] []];
                             reflexivity|].
    destruct (Ascii.eqb c "0") eqn:Hzero.
    - apply Ascii.eqb_eq in Hzero. subst c.
      destruct (Hhex eq_refl) as [Hx HX].
      destruct x as [[] [] [] [] [] [] [] []]; try reflexivity;
        exfalso; first [apply Hx; reflexivity|apply HX; reflexivity].
    - destruct c as [[] [] [] [] [] [] [] []]; try reflexivity;
        vm_compute in Hzero; discriminate. }
  rewrite Hradix. destruct (digits 10 (String c r) None); reflexivity.
Qed.

Lemma digits_index_string (i : nat) :
  digits 10 (index_string i) None = Some (N.of_nat i).
Proof.
  unfold index_string.
  rewrite (digits_of_uint _ (to_uint_nonnil _)), DecimalN.Unsigned.of_to.
  reflexivity.
Qed.

Lemma index_of_number_position (i : nat) :
  (N.of_nat i < 4294967295)%N ->
  index_of_number (Some (Z.of_N (N.of_nat i))) = Some i.
Proof.
  intros Hi. unfold index_of_number.
  destruct ((0 <=? Z.of_N (N.of_nat i))%Z
            && (Z.of_N (N.of_nat i) <? 4294967295)%Z) eqn:Hrange.
  - f_equal. lia.
  - apply andb_false_iff in Hrange as [Hr|Hr].
    + apply Z.leb_gt in Hr. lia.
    + apply Z.ltb_ge in Hr. lia.
Qed.

(** The index that [parseInt] reads from the decimal writing of a
    position followed by anything that is no digit. *)
Lemma parseInt_leading_digits (i : nat) (rest : string) :
  (N.of_nat i < 4294967295)%N ->
  match rest with
  | String c _ =>
      decimal_digit c = false /\ (i = 0 -> c <> "x"%char /\ c <> "X"%char)
  | EmptyString => True
  end ->
  index_of_number (parseInt (index_string i ++ rest)) = Some i.
Proof.
  intros Hi Hrest.
  pose proof (digits_only_decimal (N.of_nat i)) as Hdigits.
  change (decimal (N.of_nat i)) with (index_string i) in Hdigits.
  assert (Hvalue : digits 10 (index_string i ++ rest) None
                   = Some (N.of_nat i)).
  { rewrite digits_stop; [apply digits_index_string|exact Hdigits|].
    destruct rest; tauto. }
  destruct (decimal_cons (N.of_nat i)) as (c & r & Hcr).
  change (decimal (N.of_nat i)) with (index_string i) in Hcr.
  rewrite Hcr in *.
  rewrite string_app_cons in *. cbn [digits_only] in Hdigits.
  apply andb_true_iff in Hdigits as [Hc Hr].
  rewrite parseInt_decimal, Hvalue;
    [apply index_of_number_position, Hi|exact Hc|].
  intros ->. destruct r as [|x r'].
  - rewrite string_app_nil_l. destruct rest as [|y rest']; [exact I|].
    apply Hrest. apply Nat2N.inj, decimal_inj. exact Hcr.
  - rewrite string_app_cons. cbn [digits_only] in Hr.
    apply andb_true_iff in Hr as [Hx _].
    split; intros ->; discriminate Hx.
Qed.

(** X17. The toggle reads the leading digits of its index and nothing
    else. The decimal writing of a position followed by any text that
    does not begin with a digit (nor, after a lone zero, with the [x] of
    a hexadecimal number) denotes that position: the request does what
    the request with the bare index does. *)
Theorem toggleLike_reads_leading_digits (w : world) (i : nat)
  (rest : string) :
  (N.of_nat i < 4294967295)%N ->
  match rest with
  | String c _ =>
      decimal_digit c = false /\ (i = 0 -> c <> "x"%char /\ c <> "X"%char)
  | EmptyString => True
  end ->
  index_of_number (parseInt (index_string i ++ rest)) = Some i
  /\ post_toggleLike (index_string i ++ rest) w
     = post_toggleLike (index_string i) w.
Proof.
  intros Hi Hrest.
  pose proof (parseInt_leading_digits i rest Hi Hrest) as H.
  pose proof (parseInt_leading_digits i EmptyString Hi I) as H0.
  rewrite string_app_nil_r in H0.
  split; [exact H|]. unfold post_toggleLike, bind, read_artworks.
  rewrite H, H0. reflexivity.
Qed.

Lemma toggleLike_reads_leading_digits_witness :
  index_of_number (parseInt (index_string 1 ++ "st record")) = Some 1%nat
  /\ post_toggleLike (index_string 1 ++ "st record") gallery
     = post_toggleLike (index_string 1) gallery.
Proof.
  apply (toggleLike_reads_leading_digits gallery 1 "st record").
  - reflexivity.
  - split; [reflexivity|]. intros H. discriminate H.
Defined.

(** ** When the favourites page throws *)

(** A filter throws exactly when its callback throws at a position that
    is no hole. *)
Lemma filter_throws_iff (p : nat * Artwork -> option bool)
  (arts : list slot) :
  forall k,
    filter_or_throw p (with_index k arts) = None
    <-> exists j s,
          arts !! j = Some s /\ s <> Hole /\ p (k + j, spread s) = None.
Proof.
  induction arts as [|s arts IH]; intros k.
  - split; [discriminate|]. intros (j & s & H & _). discriminate.
  - assert (Hlater :
      (exists j s', arts !! j = Some s' /\ s' <> Hole
                    /\ p (S k + j, spread s') = None)
      -> exists j s', (s :: arts) !! j = Some s' /\ s' <> Hole
                      /\ p (k + j, spread s') = None).
    { intros (j & s' & Hj & Hs & Hp). exists (S j), s'.
      replace (k + S j) with (S k + j) by lia. auto. }
    assert (Hhere : s <> Hole ->
      match p (k, spread s) with
      | Some c =>
          match filter_or_throw p (with_index (S k) arts) with
          | Some r' => Some (if c then (k, spread s) :: r' else r')
          | None => None
          end
      | None => None
      end = None
      <-> exists j s', (s :: arts) !! j = Some s' /\ s' <> Hole
                       /\ p (k + j, spread s') = None).
    { intros Hs. destruct (p (k, spread s)) as [c|] eqn:Hp.
      - destruct (filter_or_throw p (with_index (S k) arts)) as [r'|] eqn:Hr.
        + split; [discriminate|]. intros ([|j] & s' & Hj & Hs' & Hp').
          * injection Hj as <-. rewrite Nat.add_0_r in Hp'. congruence.
          * assert (Hnone : filter_or_throw p (with_index (S k) arts) = None).
            { apply IH. exists j, s'.
              replace (S k + j) with (k + S j) by lia. auto. }
            congruence.
        + split; [|reflexivity]. intros _. apply Hlater, (IH (S k)), Hr.
      - split; [|reflexivity]. intros _. exists 0, s.
        rewrite Nat.add_0_r. auto. }
    destruct s as [| |a]; [|apply Hhere; discriminate..].
    cbn [with_index]. rewrite IH. split; [exact Hlater|].
    intros ([|j] & s' & Hj & Hs' & Hp').
    + injection Hj as <-. congruence.
    + exists j, s'. replace (S k + j) with (k + S j) by lia. auto.
Qed.

Lemma favourites_filter_throws (q : string) (j : nat) (a : Artwork) :
  favourites_filter q (j, a) = None
  <-> liked a = Some true
      /\ (title a = None
          \/ (~ contains_ci (title a) q /\ description a = None)).
Proof.
  unfold favourites_filter. cbn [snd].
  destruct (liked a) as [[|]|];
    [|split; [discriminate|intros [H _]; discriminate H]..].
  destruct (title a) as [t|]; [|cbn [matches]; tauto].
  pose proof (matches_spec t q) as Hspec.
  destruct (matches (Some t) q) as [[|]|] eqn:Hm.
  - split; [discriminate|]. intros [_ [H|[H _]]]; [discriminate H|].
    destruct H. apply Hspec. reflexivity.
  - assert (Hno : ~ contains_ci (Some t) q).
    { intros H. apply Hspec in H. discriminate H. }
    destruct (description a) as [d|]; cbn [matches].
    + split; [discriminate|]. intros [_ [H|[_ H]]]; discriminate H.
    + tauto.
  - discriminate Hm.
Qed.

(** X18. The favourites page reads the texts of the liked records only,
    and the description only where the title does not match: it throws
    exactly when a liked record has no title, or has no description and
    a title that does not hold the query. A [null], a hole and a record
    that is not liked never make it throw. *)
Theorem favourites_page_throws_iff (template : string)
  (search : option string) (w : world) :
  favourites_page template search w = Throws TypeError w
  <-> exists a,
        Obj a ∈ artworks w
        /\ liked a = Some true
        /\ (title a = None
            \/ (~ contains_ci (title a) (searchQuery search)
                /\ description a = None)).
Proof.
  pose proof (filter_throws_iff (favourites_filter (searchQuery search))
                (artworks w) 0) as H.
  assert (Hiff :
    filter_or_throw (favourites_filter (searchQuery search))
      (with_index 0 (artworks w)) = None
    <-> exists a,
          Obj a ∈ artworks w
          /\ liked a = Some true
          /\ (title a = None
              \/ (~ contains_ci (title a) (searchQuery search)
                  /\ description a = None))).
  { rewrite H. split.
    - intros (j & s & Hj & Hs & Hp).
      apply favourites_filter_throws in Hp as [Hl Ht].
      destruct s as [| |a]; [congruence|discriminate Hl|].
      exists a. split; [|auto]. apply list_elem_of_lookup. eauto.
    - intros (a & Hin & Hl & Ht).
      apply list_elem_of_lookup in Hin as [j Hj].
      exists j, (Obj a). split; [exact Hj|]. split; [discriminate|].
      apply favourites_filter_throws. auto. }
  unfold favourites_page, bind, read_artworks. rewrite <- Hiff.
  destruct (filter_or_throw _ _); split; try discriminate; reflexivity.
Qed.

(** ** A dollar sign in a value *)

Lemma GetSubstitution_two_dollars (matched preceding following a b : string) :
  dollar_free a ->
  dollar_free b ->
  GetSubstitution matched preceding following (a ++ "$$" ++ b)
  = a ++ "$" ++ b.
Proof.
  intros Ha Hb. induction a as [|c a IH].
  - rewrite !string_app_nil_l, !string_app_cons, !string_app_nil_l.
    cbn [GetSubstitution]. rewrite Ascii.eqb_refl.
    rewrite (GetSubstitution_literal _ _ _ _ Hb). reflexivity.
  - apply dollar_free_cons in Ha as [Hc Ha].
    rewrite !(string_app_cons c). cbn [GetSubstitution].
    rewrite Hc, (IH Ha). reflexivity.
Qed.

Lemma replace_two_dollars (s pre p post a b : string) :
  s = pre ++ p ++ post ->
  unbordered p = true ->
  includes pre p = false ->
  dollar_free a ->
  dollar_free b ->
  replace s p (a ++ "$$" ++ b) = pre ++ (a ++ "$" ++ b) ++ post.
Proof.
  intros -> Hu Hno Ha Hb. unfold replace.
  rewrite (first_occurrence_at _ _ _ Hu Hno).
  rewrite (GetSubstitution_two_dollars _ _ _ _ _ Ha Hb). reflexivity.
Qed.

(** X19. Two dollar signs in a row show as one. The replacement text of
    [replace] is a pattern, and the edit form passes the stored title as
    that text: for a record whose title is [a ++ "$$" ++ b] the form
    shows [a ++ "$" ++ b] in the place of the title, which is not the
    stored title. *)
Theorem update_page_halves_dollars (w : world) (id : string) (i : nat)
  (item : Artwork) (a b t0 t1 t2 t3 t4 : string) :
  array_index id = Some i ->
  artworks w !! i = Some (Obj item) ->
  title item = Some (a ++ "$$" ++ b) ->
  dollar_free a -> dollar_free b ->
  let shown := a ++ "$" ++ b in
  let d := ToString (date item) in
  let x := ToString (description item) in
  dollar_free d -> dollar_free x ->
  includes t0 "{{id}}" = false ->
  includes (t0 ++ id ++ t1) "{{title}}" = false ->
  includes (t0 ++ id ++ t1 ++ shown ++ t2) "{{date}}" = false ->
  includes (t0 ++ id ++ t1 ++ shown ++ t2 ++ d ++ t3) "{{description}}"
  = false ->
  update_page
    (t0 ++ "{{id}}" ++ t1 ++ "{{title}}" ++ t2 ++ "{{date}}" ++ t3
     ++ "{{description}}" ++ t4) id w
  = Returns (t0 ++ id ++ t1 ++ shown ++ t2 ++ d ++ t3 ++ x ++ t4) w
  /\ title item <> Some shown.
Proof.
  intros Hid Hi Htitle Ha Hb shown d x Hd Hx H0 H1 H2 H3. split.
  - unfold update_page, bind, read_artworks.
    rewrite (classify_index _ _ Hid), (element_lookup _ _ _ Hi), Htitle.
    fold d x. unfold ret, ToString. f_equal.
    assert (Hdollar : dollar_free id).
    { rewrite (array_index_canonical _ _ Hid).
      apply index_string_dollar_free. }
    rewrite (replace_at t0 "{{id}}"); [|reflexivity|exact H0|exact Hdollar].
    erewrite (replace_two_dollars _ (t0 ++ id ++ t1) "{{title}}" _ a b);
      [|rewrite !string_app_assoc; reflexivity|reflexivity|exact H1
       |exact Ha|exact Hb].
    fold shown.
    erewrite (replace_in _ (t0 ++ id ++ t1 ++ shown ++ t2) "{{date}}" _ d);
      [|rewrite !string_app_assoc; reflexivity|reflexivity|exact H2
       |exact Hd].
    erewrite (replace_in _ (t0 ++ id ++ t1 ++ shown ++ t2 ++ d ++ t3)
                "{{description}}" _ x);
      [|rewrite !string_app_assoc; reflexivity|reflexivity|exact H3
       |exact Hx].
    rewrite !string_app_assoc. reflexivity.
  - rewrite Htitle. intros [= H].
    apply (f_equal String.length) in H. unfold shown in H.
    rewrite !string_app_length in H. simpl in H. lia.
Qed.

Lemma update_page_halves_dollars_witness :
  update_page update_html "0" priced
  = Returns
      (html "<form method='POST' action='/updateArtwork/0'>
<input name='title' value='The $ bill'>
<input name='date' value='1962'>
<textarea name='description'>Silkscreen</textarea>
</form>") priced
  /\ Some "The $$ bill" <> Some "The $ bill".
Proof.
  apply (update_page_halves_dollars priced "0" 0
           (mkArtwork (Some "The $$ bill") (Some "1962") (Some "Silkscreen")
              ImageNull (Some false))
           "The " " bill"
           (html "<form method='POST' action='/updateArtwork/")
           (html "'>
<input name='title' value='")
           (html "'>
<input name='date' value='")
           (html "'>
<textarea name='description'>")
           (html "</textarea>
</form>"));
    reflexivity.
Defined.

(** ** The pages and the listings *)

(** The pages are the listings of [get_home], [get_favourites] and
    [get_updateArtwork], put into the templates. *)
Lemma pages_follow_views (template : string) (search : option string)
  (id : string) (w : world) :
  home_page template search w
  = match get_home search w with
    | Returns (Page _ items q) w' =>
        Returns (replace (replace template "<!-- ARTWORK_LIST -->"
                            (join (map home_card items)))
                   "{{search}}" q) w'
    | Returns _ _ => Unmodelled
    | Throws e w' => Throws e w'
    | Unmodelled => Unmodelled
    end
  /\ favourites_page template search w
     = match get_favourites search w with
       | Returns (Page _ items q) w' =>
           Returns (replace (replace template "<!-- FAVOURITES_LIST -->"
                               (join (map favourites_card items)))
                      "{{search}}" q) w'
       | Returns _ _ => Unmodelled
       | Throws e w' => Throws e w'
       | Unmodelled => Unmodelled
       end
  /\ update_page template id w
     = match get_updateArtwork id w with
       | Returns (Form id' t d x) w' =>
           Returns (replace
                      (replace
                         (replace (replace template "{{id}}" id')
                            "{{title}}" (ToString t))
                         "{{date}}" (ToString d))
                      "{{description}}" (ToString x)) w'
       | Returns _ _ => Unmodelled
       | Throws e w' => Throws e w'
       | Unmodelled => Unmodelled
       end.
Proof.
  unfold home_page, favourites_page, update_page, get_home, get_favourites,
    get_updateArtwork, bind, read_artworks.
  repeat split.
  - destruct (filter_or_throw _ _); reflexivity.
  - destruct (filter_or_throw _ _); reflexivity.
  - destruct (classify id) as [i| |]; try reflexivity.
    destruct (element (artworks w) i); reflexivity.
Qed.
